(** * pytest-remotedata: the socket blocker of [disable_internet.py]

    A shallow embedding of [pytest_remotedata/disable_internet.py] and the
    properties of its host classifier ([_resolve_host_ips],
    [check_internet_off]) and of its interception controller
    ([turn_off_internet], [turn_on_internet], [no_internet]).

    Python objects are modelled by the inductive [value]; exceptions by the
    error monad [result]; the module globals and the attributes of [socket]
    and [urllib.request] that the module assigns by the record [state];
    the closures built by [check_internet_off] by a constructor of
    [primitive], so that "which function is installed" is a datum that can be
    compared. *)

From Stdlib Require Import ZArith String Ascii List.
From stdpp Require Import base decidable option list gmap sets strings.

Set Warnings "-register-all".
Local Open Scope string_scope.

(** ** Python values, exceptions *)

(** [socket.AF_*] constants the module distinguishes, and any other family. *)
Inductive address_family :=
| AF_UNSPEC
| AF_UNIX
| AF_INET
| AF_INET6
| AF_other (number : Z).

(** The positional arguments a wrapped primitive can receive: a
    [socket.socket] instance (only its [family] is read), a tuple, a [str],
    an [int]. *)
Inductive value :=
| VSock (family : address_family)
| VTuple (items : list value)
| VStr (s : string)
| VInt (n : Z).

(** Keyword arguments are passed on untouched. *)
Definition kwargs_t := list (string * value).

(** Exceptions that can leave the wrapper.  [OSError] is the one the wrapper
    raises itself; [IndexError] and [TypeError] come from subscripting the
    arguments; [Propagated name] is an exception of [socket.getaddrinfo] that
    [except socket.gaierror] does not catch. *)
Inductive exn :=
| OSError (msg : string)
| IndexError
| TypeError
| Propagated (name : string).

Inductive result (A : Type) :=
| Ok (a : A)
| Err (e : exn).
Arguments Ok {A} a.
Arguments Err {A} e.

#[global] Instance result_ret : MRet result := fun A a => Ok a.
#[global] Instance result_bind : MBind result := fun A B f m =>
  match m with
  | Ok a => f a
  | Err e => Err e
  end.

#[global] Instance address_family_eq_dec : EqDecision address_family.
Proof. solve_decision. Defined.

(** [v[i]] for a constant index [i >= 0]. *)
Definition subscript (v : value) (i : nat) : result value :=
  match v with
  | VTuple items =>
      match items !! i with
      | Some x => Ok x
      | None => Err IndexError
      end
  | VStr s =>
      match String.get i s with
      | Some c => Ok (VStr (String c EmptyString))
      | None => Err IndexError
      end
  | VSock _ | VInt _ => Err TypeError
  end.

(** [args[i]] on the argument tuple. *)
Definition arg (args : list value) (i : nat) : result value :=
  match args !! i with
  | Some x => Ok x
  | None => Err IndexError
  end.

(** ** The environment: what the [socket] module answers *)

(** One entry of [socket.getaddrinfo]'s answer,
    [(family, type, proto, canonname, sockaddr)]; [sockaddr] is
    [(address, port)] or [(address, port, flowinfo, scope_id)]. *)
Record sockaddr := {
  sa_address : string;
  sa_port : Z;
  sa_more : list Z
}.

Record addrinfo := {
  ai_family : address_family;
  ai_type : Z;
  ai_proto : Z;
  ai_canonname : string;
  ai_sockaddr : sockaddr
}.

(** What a call of [socket.getaddrinfo] does: it returns a list of entries,
    raises [socket.gaierror], or raises something else (CPython encodes the
    host with the [idna] codec first, which raises [UnicodeError] on an empty
    or over-long label). *)
Inductive getaddrinfo_outcome :=
| Addresses (infos : list addrinfo)
| gaierror
| raises (name : string).

Record environment := {
  gethostname : string;
  getfqdn : string;
  getaddrinfo : string -> Z -> getaddrinfo_outcome
}.

(** ** Module constants *)

Definition GITHUB_HOSTS : list string := ["www.github.io"].
Definition ASTROPY_HOSTS : list string :=
  ["data.astropy.org"; "astropy.stsci.edu"; "www.astropy.org"] ++ GITHUB_HOSTS.

Definition blocked_message (host : string) : string :=
  "An attempt was made to connect to the internet " +:+
  "by a test that was not marked `remote_data`. The " +:+
  "requested host was: " +:+ host.

(** ** Host classifier *)

Section Classifier.
Context (env : environment).

(** [_resolve_host_ips(hostname, port=80)]: the set comprehension
    [{s[-1][0] for s in socket.getaddrinfo(hostname, port)}], the empty set
    under [except socket.gaierror], then [ips.add(hostname)]. *)
Definition _resolve_host_ips (hostname : string) (port : Z)
  : result (gset string) :=
  ips ← match getaddrinfo env hostname port with
        | Addresses infos =>
            Ok (list_to_set (map (fun s => sa_address (ai_sockaddr s)) infos))
        | gaierror => Ok ∅
        | raises name => Err (Propagated name)
        end;
  Ok (ips ∪ {[ hostname ]}).

(** [for valid_host in hosts:
       valid_hosts = valid_hosts.union(_resolve_host_ips(valid_host))] *)
Fixpoint union_resolved (hosts : list string) (valid_hosts : gset string)
  : result (gset string) :=
  match hosts with
  | [] => Ok valid_hosts
  | valid_host :: rest =>
      ips ← _resolve_host_ips valid_host 80;
      union_resolved rest (valid_hosts ∪ ips)
  end.

(** Lines 74-82: the allow-list after the two flags are looked at. *)
Definition extend_valid_hosts (allow_astropy_data allow_github_data : bool)
    (valid_hosts : gset string) : result (gset string) :=
  if allow_astropy_data then union_resolved ASTROPY_HOSTS valid_hosts
  else if allow_github_data then union_resolved GITHUB_HOSTS valid_hosts
  else Ok valid_hosts.

(** [host in (hostname, fqdn)]; a host that is not a [str] equals
    neither. *)
Definition is_local_name (host : value) : bool :=
  match host with
  | VStr h => bool_decide (h = gethostname env) || bool_decide (h = getfqdn env)
  | _ => false
  end.

(** What [new_function] ends with: returning the call of
    [original_function] on [args] and [kwargs] is [Ok (args, kwargs)], the
    arguments the original is called with; [raise e] is [Err e]. *)
Definition delegate (args : list value) (kwargs : kwargs_t)
  : result (list value * kwargs_t) := Ok (args, kwargs).

(** Lines 84-93: the target after the local-name test, as the triple
    [(host, host_ips, args)] the branches leave behind.  A host that is no
    [str] is never a local name, and [socket.getaddrinfo] rejects it with
    [TypeError] (the model has neither [bytes] nor [None]). *)
Definition locate_target (args : list value) (host : value) (addr_arg : nat)
  : result (string * gset string * list value) :=
  if is_local_name host then
    let host := "localhost" in
    let host_ips : gset string := {[ host ]} in
    addr ← arg args addr_arg;
    port ← subscript addr 1;
    let new_addr := VTuple [VStr host; port] in
    let args :=
      (take addr_arg args ++ [new_addr] ++ drop (S addr_arg) args)%list in
    Ok (host, host_ips, args)
  else
    match host with
    | VStr h =>
        host_ips ← _resolve_host_ips h 80;
        Ok (h, host_ips, args)
    | _ => Err TypeError
    end.

(** Lines 74-100, shared by both call shapes. *)
Definition guard (allow_astropy_data allow_github_data : bool)
    (args : list value) (kwargs : kwargs_t)
    (host : value) (addr_arg : nat) (valid_hosts : gset string)
  : result (list value * kwargs_t) :=
  valid_hosts ← extend_valid_hosts allow_astropy_data allow_github_data
                  valid_hosts;
  '(host, host_ips, args) ← locate_target args host addr_arg;
  if decide (0 < size (host_ips ∩ valid_hosts))
  then delegate args kwargs
  else Err (OSError (blocked_message host)).

(** [new_function], the closure body of [check_internet_off], on its
    positional and keyword arguments. *)
Definition new_function (allow_astropy_data allow_github_data : bool)
    (args : list value) (kwargs : kwargs_t)
  : result (list value * kwargs_t) :=
  arg0 ← arg args 0;
  match arg0 with
  | VSock family =>
      if negb (bool_decide (family ∈ [AF_INET; AF_INET6]))
      then delegate args kwargs
      else
        addr ← arg args 1;
        host ← subscript addr 0;
        guard allow_astropy_data allow_github_data args kwargs host 1
          {[ "localhost"; "127.0.0.1"; "::1" ]}
  | _ =>
      match arg0 with
      | VTuple [_; _] =>
          host ← subscript arg0 0;
          guard allow_astropy_data allow_github_data args kwargs host 0
            {[ "localhost"; "127.0.0.1" ]}
      | _ => delegate args kwargs
      end
  end.
End Classifier.

(** ** Interception controller *)

(** Handlers given to [urllib.request.build_opener]; [ProxyHandler]'s
    argument is its proxy table, a [dict]. *)
Inductive handler :=
| ProxyHandler (proxies : gmap string string)
| OtherHandler (name : string).

(** An opener, as [urllib.request.build_opener] configures it: the default
    handler chain, with the handlers of the call put in. *)
Record opener := { given_handlers : list handler }.

Definition build_opener (handlers : list handler) : opener :=
  {| given_handlers := handlers |}.

(** A connection primitive as a datum: a function the module found in
    [socket] when it was imported, or a closure that [check_internet_off]
    returned, which holds [original_function] and the two flags. *)
Inductive primitive :=
| Native (name : string)
| check_internet_off (original_function : primitive)
    (allow_astropy_data allow_github_data : bool).

#[global] Instance handler_eq_dec : EqDecision handler.
Proof. solve_decision. Defined.
#[global] Instance opener_eq_dec : EqDecision opener.
Proof. solve_decision. Defined.
#[global] Instance primitive_eq_dec : EqDecision primitive.
Proof. solve_decision. Defined.

(** The globals of the module (first five fields), the attributes of other
    modules it assigns, and what it printed. *)
Record state := {
  socket_create_connection : primitive;
  socket_bind : primitive;
  socket_connect : primitive;
  INTERNET_OFF : bool;
  _orig_opener : option opener;
  (** [socket.create_connection], [socket.socket.bind],
      [socket.socket.connect] *)
  installed_create_connection : primitive;
  installed_bind : primitive;
  installed_connect : primitive;
  (** the opener [urllib.request.install_opener] has set, [None] before the
      first call *)
  installed_opener : option opener;
  stdout : list string
}.

(** Lines 9-23, executed when the module is imported: the primitives found in
    [socket] are captured, the flag is [False], no opener is saved. *)
Definition module_load (create_connection bind connect : primitive)
    (current_opener : option opener) : state :=
  {| socket_create_connection := create_connection;
     socket_bind := bind;
     socket_connect := connect;
     INTERNET_OFF := false;
     _orig_opener := None;
     installed_create_connection := create_connection;
     installed_bind := bind;
     installed_connect := connect;
     installed_opener := current_opener;
     stdout := [] |}.

(** [turn_off_internet(verbose, allow_astropy_data, allow_github_data)].
    Its return value ([None] on the early return, the [socket] module
    otherwise) is not modelled. *)
Definition turn_off_internet (verbose allow_astropy_data allow_github_data : bool)
    (s : state) : state :=
  if INTERNET_OFF s then s
  else
    let no_proxy_handler := ProxyHandler ∅ in
    let opener := build_opener [no_proxy_handler] in
    {| socket_create_connection := socket_create_connection s;
       socket_bind := socket_bind s;
       socket_connect := socket_connect s;
       INTERNET_OFF := true;
       _orig_opener := Some (build_opener []);
       installed_create_connection :=
         check_internet_off (socket_create_connection s)
           allow_astropy_data allow_github_data;
       installed_bind :=
         check_internet_off (socket_bind s)
           allow_astropy_data allow_github_data;
       installed_connect :=
         check_internet_off (socket_connect s)
           allow_astropy_data allow_github_data;
       installed_opener := Some opener;
       stdout := if verbose
                 then (stdout s ++ ["Internet access disabled"])%list
                 else stdout s |}.

(** [turn_on_internet(verbose)]. *)
Definition turn_on_internet (verbose : bool) (s : state) : state :=
  if negb (INTERNET_OFF s) then s
  else
    {| socket_create_connection := socket_create_connection s;
       socket_bind := socket_bind s;
       socket_connect := socket_connect s;
       INTERNET_OFF := false;
       _orig_opener := _orig_opener s;
       installed_create_connection := socket_create_connection s;
       installed_bind := socket_bind s;
       installed_connect := socket_connect s;
       installed_opener := _orig_opener s;
       stdout := if verbose
                 then (stdout s ++ ["Internet access enabled"])%list
                 else stdout s |}.

(** [with no_internet(verbose): body].  The generator runs up to [yield] when
    the block is entered; the [finally] clause runs when the block is left,
    by its end or by an exception, which then goes on to the caller. *)
Definition no_internet (verbose : bool)
    (body : state -> result unit * state) (s : state) : result unit * state :=
  let already_disabled := INTERNET_OFF s in
  let s := turn_off_internet verbose false false s in
  let '(outcome, s) := body s in
  let s := if negb already_disabled then turn_on_internet verbose s else s in
  (outcome, s).

(** The three primitives installed in [socket]. *)
Definition installed (s : state) : primitive * primitive * primitive :=
  (installed_create_connection s, installed_bind s, installed_connect s).

(** The three primitives captured at import. *)
Definition captured (s : state) : primitive * primitive * primitive :=
  (socket_create_connection s, socket_bind s, socket_connect s).

(** Each installed primitive is the closure of [check_internet_off] over the
    captured one, with these flags. *)
Definition wrapped_with (allow_astropy_data allow_github_data : bool)
    (s : state) : Prop :=
  installed s =
    (check_internet_off (socket_create_connection s)
       allow_astropy_data allow_github_data,
     check_internet_off (socket_bind s)
       allow_astropy_data allow_github_data,
     check_internet_off (socket_connect s)
       allow_astropy_data allow_github_data).

Definition wrapped (s : state) : Prop :=
  exists allow_astropy_data allow_github_data,
    wrapped_with allow_astropy_data allow_github_data s.

(** States the controller goes through after import. *)
Inductive reachable (s0 : state) : state -> Prop :=
| reach_load : reachable s0 s0
| reach_turn_off verbose allow_astropy_data allow_github_data s :
    reachable s0 s ->
    reachable s0 (turn_off_internet verbose allow_astropy_data
                    allow_github_data s)
| reach_turn_on verbose s :
    reachable s0 s ->
    reachable s0 (turn_on_internet verbose s).

(** What holds of every state after import: the captured primitives are
    those of the import, and the installed ones are wrapped under a raised
    flag and the captured ones under a lowered flag. *)
Definition controller_inv (s0 s : state) : Prop :=
  captured s = captured s0 /\
  if INTERNET_OFF s then wrapped s else installed s = captured s.

(** Nesting depth of [check_internet_off] closures. *)
Fixpoint layers (f : primitive) : nat :=
  match f with
  | Native _ => 0
  | check_internet_off original_function _ _ => S (layers original_function)
  end.

(** ** Calling a primitive *)

Section Calls.
Context (env : environment).
Context {R : Type}.
(** What the functions found in [socket] at import do. *)
Context (native : string -> list value -> kwargs_t -> state -> result R * state).

(** Calling a primitive: a closure of [check_internet_off] runs
    [new_function], which ends by calling [original_function] or by
    raising. *)
Fixpoint call (f : primitive) (args : list value) (kwargs : kwargs_t)
    (s : state) : result R * state :=
  match f with
  | Native name => native name args kwargs s
  | check_internet_off original_function allow_astropy_data
      allow_github_data =>
      match new_function env allow_astropy_data allow_github_data
              args kwargs with
      | Ok (args, kwargs) => call original_function args kwargs s
      | Err e => (Err e, s)
      end
  end.

(** [socket.create_connection(...)], [sock.bind(...)], [sock.connect(...)]:
    the attribute is looked up when the call is made. *)
Definition socket_create_connection_call args kwargs (s : state) :=
  call (installed_create_connection s) args kwargs s.
Definition socket_bind_call args kwargs (s : state) :=
  call (installed_bind s) args kwargs s.
Definition socket_connect_call args kwargs (s : state) :=
  call (installed_connect s) args kwargs s.
End Calls.

(** ** The call shapes the wrapper governs, and the target after the rewrite *)

(** An internet-family call: [sock.bind(address)] or [sock.connect(address)]
    on a socket of family [AF_INET] or [AF_INET6], the address a tuple that
    starts with host and port; or [create_connection((host, port), ...)].
    The last two indices are the position of the address argument and the
    base allow-list of that shape. *)
Inductive internet_call
  : list value -> string -> value -> nat -> gset string -> Prop :=
| socket_method_call family host port more rest :
    family = AF_INET \/ family = AF_INET6 ->
    internet_call
      (VSock family :: VTuple (VStr host :: port :: more) :: rest)
      host port 1 {[ "localhost"; "127.0.0.1"; "::1" ]}
| create_connection_call host port rest :
    internet_call
      (VTuple [VStr host; port] :: rest)
      host port 0 {[ "localhost"; "127.0.0.1" ]}.


(** The arguments after the local-name rewrite: the address argument becomes
    [("localhost", port)] when the host is a local name. *)
Definition rewritten_args (env : environment) (args : list value)
    (addr_arg : nat) (host : string) (port : value) : list value :=
  if is_local_name env (VStr host)
  then <[ addr_arg := VTuple [VStr "localhost"; port] ]> args
  else args.

(** ** A machine to run the definitions on *)

Definition loopback_answer (port : Z) : list addrinfo :=
  [ {| ai_family := AF_INET; ai_type := 1; ai_proto := 6; ai_canonname := "";
       ai_sockaddr := {| sa_address := "127.0.0.1"; sa_port := port;
                         sa_more := [] |} |};
    {| ai_family := AF_INET6; ai_type := 1; ai_proto := 6; ai_canonname := "";
       ai_sockaddr := {| sa_address := "::1"; sa_port := port;
                         sa_more := [0%Z; 0%Z] |} |} ].

Definition one_address (address : string) (port : Z) : list addrinfo :=
  [ {| ai_family := AF_INET; ai_type := 1; ai_proto := 6; ai_canonname := "";
       ai_sockaddr := {| sa_address := address; sa_port := port;
                         sa_more := [] |} |} ].

(** A host named [buildhost] whose resolver knows [localhost] and
    [data.astropy.org], fails on every other name with [socket.gaierror],
    and, as CPython does, raises [UnicodeError] while encoding the name
    [a..b], whose second label is empty. *)
Definition example_env : environment :=
  {| gethostname := "buildhost";
     getfqdn := "buildhost.example.org";
     getaddrinfo := fun host port =>
       if bool_decide (host = "localhost") then Addresses (loopback_answer port)
       else if bool_decide (host = "data.astropy.org")
            then Addresses (one_address "192.0.2.10" port)
       else if bool_decide (host = "a..b") then raises "UnicodeError"
       else gaierror |}.

(** Native primitives that answer with their own name and leave the
    controller alone. *)
Definition example_native (name : string) (args : list value)
    (kwargs : kwargs_t) (s : state) : result string * state :=
  (Ok name, s).

Definition example_load (current_opener : option opener) : state :=
  module_load (Native "socket.create_connection")
    (Native "socket.socket.bind") (Native "socket.socket.connect")
    current_opener.

(** An opener that a program installed to go through a proxy. *)
Definition proxied_opener : opener :=
  build_opener [ProxyHandler {[ "http" := "http://proxy.example.org:3128" ]}].

(** The body of a [with] block that opens one connection on the example
    machine, as [urlopen] does through [socket.create_connection]. *)
Definition open_connection (host : string) (port : Z) (s : state)
  : result unit * state :=
  let '(outcome, s) :=
    socket_create_connection_call example_env example_native
      [VTuple [VStr host; VInt port]] [] s in
  (match outcome with
   | Ok _ => Ok ()
   | Err e => Err e
   end, s).

(** ** Flags, answers, blocks that connect *)

(** What the two flags grant: nothing, the GitHub hosts, or the Astropy
    hosts, which include the GitHub ones; [allow_astropy_data] is looked at
    first. *)
Definition access_level (allow_astropy_data allow_github_data : bool) : nat :=
  if allow_astropy_data then 2 else if allow_github_data then 1 else 0.

(** The names whose identities the flags add to the allow-list. *)
Definition allowed_names (allow_astropy_data allow_github_data : bool)
  : list string :=
  if allow_astropy_data then ASTROPY_HOSTS
  else if allow_github_data then GITHUB_HOSTS
  else [].

(** On each of these names the resolver answers or raises
    [socket.gaierror]. *)
Definition resolvable (env : environment) (hosts : list string) : bool :=
  forallb (fun host =>
             match getaddrinfo env host 80 with
             | raises _ => false
             | _ => true
             end) hosts.

(** The addresses [s[-1][0]] of an answer of [socket.getaddrinfo]. *)
Definition answer_addresses (infos : list addrinfo) : list string :=
  map (fun s => sa_address (ai_sockaddr s)) infos.

(** The body of a [with] block that calls
    [socket.create_connection((host, port))] and drops the connection. *)
Definition create_connection_block {R} (env : environment)
    (native : string -> list value -> kwargs_t -> state -> result R * state)
    (host : string) (port : value) (s : state) : result unit * state :=
  let '(outcome, s) :=
    socket_create_connection_call env native [VTuple [VStr host; port]] [] s in
  (match outcome with
   | Ok _ => Ok ()
   | Err e => Err e
   end, s).

(** [turn_off_internet(...)] followed by [turn_on_internet()], both with
    [verbose=False]. *)
Definition quiet_cycle (allow_astropy_data allow_github_data : bool)
    (s : state) : state :=
  turn_on_internet false
    (turn_off_internet false allow_astropy_data allow_github_data s).

(** The two halves of the context manager [no_internet]: what runs when the
    block is entered, up to [yield], which leaves [already_disabled] in the
    generator's frame; and the [finally] clause, which runs when the block is
    left. *)
Definition no_internet_enter (verbose : bool) (s : state) : bool * state :=
  let already_disabled := INTERNET_OFF s in
  (already_disabled, turn_off_internet verbose false false s).

Definition no_internet_exit (verbose : bool) (already_disabled : bool)
    (s : state) : state :=
  if negb already_disabled then turn_on_internet verbose s else s.

(** The example machine with a resolver that also answers the numeric names
    [127.0.0.1] and [::1] with themselves and knows [intranet] as a name of
    [127.0.0.1], as an entry of the hosts file would make it. *)
Definition hosts_file_env : environment :=
  {| gethostname := gethostname example_env;
     getfqdn := getfqdn example_env;
     getaddrinfo := fun host port =>
       if bool_decide (host = "::1") then Addresses (one_address "::1" port)
       else if bool_decide (host = "127.0.0.1")
            then Addresses (one_address "127.0.0.1" port)
       else if bool_decide (host = "intranet")
            then Addresses (one_address "127.0.0.1" port)
       else getaddrinfo example_env host port |}.

(** ** The stoppable server of [test_socketblocker.py] *)

(** A [StoppableHTTPServer]: the attribute [stop] and the rest of the
    object, which belongs to [HTTPServer]. *)
Record StoppableHTTPServer (B : Type) := {
  stop : bool;
  http_server : B
}.
Arguments stop {B} _.
Arguments http_server {B} _.

Section TestServer.
Context {B : Type}.
(** [HTTPServer.handle_request], which does not know of [stop]. *)
Context (HTTPServer_handle_request : B -> B).

(** [__init__]: the object [HTTPServer.__init__] has set up, then
    [self.stop = False]. *)
Definition StoppableHTTPServer_init (initialised : B) : StoppableHTTPServer B :=
  {| stop := false; http_server := initialised |}.

(** [handle_request]: [self.stop = True], then the inherited method. *)
Definition handle_request (self : StoppableHTTPServer B)
  : StoppableHTTPServer B :=
  {| stop := true;
     http_server := HTTPServer_handle_request (http_server self) |}.

(** [serve_forever]: [while not self.stop: self.handle_request()], with a
    bound on the number of rounds; [None] when the bound is used up before
    the loop ends. *)
Fixpoint serve_forever (rounds : nat) (self : StoppableHTTPServer B)
  : option (StoppableHTTPServer B) :=
  if stop self then Some self
  else
    match rounds with
    | 0 => None
    | S rounds => serve_forever rounds (handle_request self)
    end.
End TestServer.

(** * Properties *)

(** ** The error monad *)

Ltac unfold_result :=
  unfold mbind, mret, result_bind, result_ret, delegate in *.

Lemma bind_ok {A B} (m : result A) (f : A -> result B) (b : B) :
  m ≫= f = Ok b -> exists a, m = Ok a /\ f a = Ok b.
Proof. destruct m as [a|e]; unfold_result; [eauto | discriminate]. Qed.

Lemma bind_err {A B} (m : result A) (f : A -> result B) (e : exn) :
  m ≫= f = Err e -> m = Err e \/ exists a, m = Ok a /\ f a = Err e.
Proof. destruct m as [a|e']; unfold_result; [eauto | intros [= ->]; auto]. Qed.

(** ** Host classifier *)

Section ClassifierFacts.
Context (env : environment).

Lemma resolve_host_ips_inv hostname port ips :
  _resolve_host_ips env hostname port = Ok ips ->
  hostname ∈ ips /\
  (getaddrinfo env hostname port = gaierror -> ips = {[ hostname ]}) /\
  (forall name, getaddrinfo env hostname port <> raises name).
Proof.
  unfold _resolve_host_ips.
  destruct (getaddrinfo env hostname port) as [infos| |name];
    unfold_result; intros Heq; simplify_eq; repeat split;
    try discriminate.
  - apply elem_of_union_r, elem_of_singleton_2; reflexivity.
  - apply elem_of_union_r, elem_of_singleton_2; reflexivity.
  - intros _. apply (left_id_L ∅ (∪)).
Qed.

Lemma resolve_host_ips_propagates hostname port name :
  getaddrinfo env hostname port = raises name ->
  _resolve_host_ips env hostname port = Err (Propagated name).
Proof. unfold _resolve_host_ips. now intros ->. Qed.


Lemma union_resolved_grows hosts valid_hosts allow :
  union_resolved env hosts valid_hosts = Ok allow -> valid_hosts ⊆ allow.
Proof.
  revert valid_hosts.
  induction hosts as [|valid_host rest IH]; intros valid_hosts; simpl.
  - now intros [= <-].
  - intros H. apply bind_ok in H as (ips & _ & H).
    apply IH in H. set_solver.
Qed.


Lemma extend_valid_hosts_grows a g valid_hosts allow :
  extend_valid_hosts env a g valid_hosts = Ok allow -> valid_hosts ⊆ allow.
Proof.
  unfold extend_valid_hosts.
  destruct a; [|destruct g]; try apply union_resolved_grows.
  now intros [= <-].
Qed.


Lemma extend_valid_hosts_no_flags valid_hosts :
  extend_valid_hosts env false false valid_hosts = Ok valid_hosts.
Proof. reflexivity. Qed.

Lemma size_pos_iff (X : gset string) : 0 < size X <-> X <> ∅.
Proof.
  split.
  - intros H ->. rewrite size_empty in H. lia.
  - intros H. destruct (decide (size X = 0)) as [E|]; [|lia].
    apply size_empty_iff, leibniz_equiv in E. contradiction.
Qed.
End ClassifierFacts.

Section WrapperFacts.
Context (env : environment).

Lemma internet_call_guard a g args kwargs host port addr_arg base :
  internet_call args host port addr_arg base ->
  new_function env a g args kwargs =
  guard env a g args kwargs (VStr host) addr_arg base.
Proof.
  intros [family h p more rest [-> | ->]|h p rest]; reflexivity.
Qed.

Lemma internet_call_address args host port addr_arg base :
  internet_call args host port addr_arg base ->
  exists addr, args !! addr_arg = Some addr /\ subscript addr 1 = Ok port.
Proof.
  intros [family h p more rest _|h p rest]; eexists; split; reflexivity.
Qed.

Lemma internet_call_base args host port addr_arg base :
  internet_call args host port addr_arg base -> "localhost" ∈ base.
Proof. intros [family h p more rest _|h p rest]; set_solver. Qed.

(** The slice assignment of line 91 is an update at [addr_arg]. *)
Lemma slice_update (args : list value) (addr_arg : nat) (addr new_addr : value) :
  args !! addr_arg = Some addr ->
  (take addr_arg args ++ [new_addr] ++ drop (S addr_arg) args)%list =
  <[ addr_arg := new_addr ]> args.
Proof.
  intros H. symmetry. apply insert_take_drop.
  now apply lookup_lt_Some in H.
Qed.

Lemma locate_target_local args host port addr_arg base :
  internet_call args host port addr_arg base ->
  is_local_name env (VStr host) = true ->
  locate_target env args (VStr host) addr_arg =
  Ok ("localhost", {[ "localhost" ]},
      <[ addr_arg := VTuple [VStr "localhost"; port] ]> args).
Proof.
  intros Hshape Hlocal. unfold locate_target. rewrite Hlocal.
  destruct (internet_call_address _ _ _ _ _ Hshape) as (addr & Haddr & Hport).
  unfold arg. rewrite Haddr. unfold_result. rewrite Hport.
  now rewrite (slice_update _ _ addr).
Qed.

Lemma locate_target_remote args host addr_arg :
  is_local_name env (VStr host) = false ->
  locate_target env args (VStr host) addr_arg =
  ips ← _resolve_host_ips env host 80; Ok (host, ips, args).
Proof. intros Hremote. unfold locate_target. now rewrite Hremote. Qed.

Lemma local_name_allowed a g args kwargs host port addr_arg base allow :
  internet_call args host port addr_arg base ->
  is_local_name env (VStr host) = true ->
  extend_valid_hosts env a g base = Ok allow ->
  new_function env a g args kwargs =
  Ok (<[ addr_arg := VTuple [VStr "localhost"; port] ]> args, kwargs).
Proof.
  intros Hshape Hlocal Hallow.
  rewrite (internet_call_guard _ _ _ _ _ _ _ _ Hshape). unfold guard.
  rewrite Hallow. unfold_result.
  rewrite (locate_target_local _ _ _ _ _ Hshape Hlocal).
  destruct (decide _) as [|Hempty]; [reflexivity|].
  exfalso. apply Hempty, size_pos_iff.
  apply extend_valid_hosts_grows in Hallow.
  apply internet_call_base in Hshape. set_solver.
Qed.

Lemma remote_name_checked a g args kwargs host port addr_arg base allow ids :
  internet_call args host port addr_arg base ->
  is_local_name env (VStr host) = false ->
  extend_valid_hosts env a g base = Ok allow ->
  _resolve_host_ips env host 80 = Ok ids ->
  new_function env a g args kwargs =
  if decide (0 < size (ids ∩ allow)) then Ok (args, kwargs)
  else Err (OSError (blocked_message host)).
Proof.
  intros Hshape Hremote Hallow Hids.
  rewrite (internet_call_guard _ _ _ _ _ _ _ _ Hshape). unfold guard.
  rewrite Hallow. unfold_result.
  rewrite (locate_target_remote _ _ _ Hremote). unfold_result.
  now rewrite Hids.
Qed.

End WrapperFacts.

(** ** Claims about the host classifier *)



(** C6.  A call of internet-family shape whose host is the machine's host
    name or fully-qualified name has its address argument replaced by
    [("localhost", port)], the port being the original one and the other
    arguments untouched, and is handed to the original primitive: with no
    allow flag set, and with flags set once their allow-list is resolved. *)
Theorem local_name_rewritten_and_allowed
    env args kwargs host port addr_arg base :
  internet_call args host port addr_arg base ->
  host = gethostname env \/ host = getfqdn env ->
  let args' := <[ addr_arg := VTuple [VStr "localhost"; port] ]> args in
  args' !! addr_arg = Some (VTuple [VStr "localhost"; port]) /\
  (forall i, i <> addr_arg -> args' !! i = args !! i) /\
  new_function env false false args kwargs = Ok (args', kwargs) /\
  (forall a g allow,
      extend_valid_hosts env a g base = Ok allow ->
      new_function env a g args kwargs = Ok (args', kwargs) /\
      forall R (native : string -> list value -> kwargs_t -> state ->
                         result R * state) original s,
        call env native (check_internet_off original a g) args kwargs s =
        call env native original args' kwargs s).
Proof.
  intros Hshape Hname args'.
  assert (Hlocal : is_local_name env (VStr host) = true).
  { simpl. apply orb_true_iff.
    destruct Hname as [-> | ->]; [left|right]; now apply bool_decide_eq_true. }
  destruct (internet_call_address _ _ _ _ _ Hshape) as (addr & Haddr & _).
  assert (Hnf : forall a g allow,
             extend_valid_hosts env a g base = Ok allow ->
             new_function env a g args kwargs = Ok (args', kwargs)).
  { intros a g allow Hallow.
    exact (local_name_allowed env _ _ _ kwargs _ _ _ _ _
             Hshape Hlocal Hallow). }
  repeat split.
  - apply list_lookup_insert_eq. now apply lookup_lt_Some in Haddr.
  - intros i Hi. now apply list_lookup_insert_ne.
  - now apply (Hnf false false base).
  - now apply (Hnf a g allow).
  - intros R native original s. simpl. now rewrite (Hnf a g allow).
Qed.

Lemma local_name_rewritten_and_allowed_witness :
  new_function example_env false false
    [VSock AF_INET; VTuple [VStr "buildhost"; VInt 8080]] [] =
  Ok ([VSock AF_INET; VTuple [VStr "localhost"; VInt 8080]], []).
Proof.
  apply (local_name_rewritten_and_allowed example_env
           [VSock AF_INET; VTuple [VStr "buildhost"; VInt 8080]] []
           "buildhost" (VInt 8080) 1 {[ "localhost"; "127.0.0.1"; "::1" ]}).
  - apply (socket_method_call AF_INET "buildhost" (VInt 8080) [] []).
    left. reflexivity.
  - left. reflexivity.
Defined.

(** C7 (amended).  Whenever [socket.getaddrinfo] returns or raises
    [socket.gaierror], [_resolve_host_ips] returns a set that contains the
    host name it was given; when [socket.gaierror] was raised, the set is
    that name alone. *)
Theorem resolve_host_ips_absorbs_gaierror env hostname port :
  (forall name, getaddrinfo env hostname port <> raises name) ->
  exists ips,
    _resolve_host_ips env hostname port = Ok ips /\
    hostname ∈ ips /\
    (getaddrinfo env hostname port = gaierror -> ips = {[ hostname ]}).
Proof.
  intros Hcaught.
  destruct (_resolve_host_ips env hostname port) as [ips|e] eqn:Hips.
  - exists ips. split; [reflexivity|].
    apply resolve_host_ips_inv in Hips as (Hin & Hgai & _). now split.
  - exfalso. unfold _resolve_host_ips in Hips.
    destruct (getaddrinfo env hostname port) as [infos| |name] eqn:Hgai;
      unfold_result; try discriminate.
    now apply (Hcaught name).
Qed.

Lemma resolve_host_ips_absorbs_gaierror_witness :
  exists ips,
    _resolve_host_ips example_env "www.python.org" 80 = Ok ips /\
    "www.python.org" ∈ ips /\
    (getaddrinfo example_env "www.python.org" 80 = gaierror ->
     ips = {[ "www.python.org" ]}).
Proof.
  apply (resolve_host_ips_absorbs_gaierror example_env "www.python.org" 80).
  intros name. vm_compute. discriminate.
Defined.

(** C7, as stated, fails: on the host name [a..b] the resolver raises
    [UnicodeError], which [except socket.gaierror] does not catch, and
    [_resolve_host_ips] returns no set. *)
Lemma resolve_host_ips_raises_on_empty_label :
  _resolve_host_ips example_env "a..b" 80 = Err (Propagated "UnicodeError") /\
  ~ exists ips, _resolve_host_ips example_env "a..b" 80 = Ok ips.
Proof.
  split; [reflexivity|]. intros [ips H]. discriminate H.
Qed.

(** C8.  A call whose first argument is a socket of a family other than
    [AF_INET] and [AF_INET6], or is neither a socket nor a tuple of length
    two, is handed to the original primitive with its arguments as they are;
    the wrapper raises nothing. *)
Theorem ungoverned_call_passes_through env a g arg0 rest kwargs :
  (exists family,
      arg0 = VSock family /\ family <> AF_INET /\ family <> AF_INET6) \/
  ((forall family, arg0 <> VSock family) /\
   (forall x y, arg0 <> VTuple [x; y])) ->
  new_function env a g (arg0 :: rest) kwargs = Ok (arg0 :: rest, kwargs) /\
  forall R (native : string -> list value -> kwargs_t -> state ->
                     result R * state) original s,
    call env native (check_internet_off original a g) (arg0 :: rest) kwargs s =
    call env native original (arg0 :: rest) kwargs s.
Proof.
  intros Hshape.
  assert (Hnf : new_function env a g (arg0 :: rest) kwargs =
                Ok (arg0 :: rest, kwargs)).
  { destruct Hshape as [(family & -> & H4 & H6)|[Hsock Htuple]].
    - unfold new_function. simpl.
      rewrite bool_decide_eq_false_2; [reflexivity|].
      intros Hin. apply elem_of_cons in Hin as [->|Hin]; [contradiction|].
      apply elem_of_cons in Hin as [->|Hin]; [contradiction|].
      now apply elem_of_nil in Hin.
    - destruct arg0 as [family|items|str|n]; try reflexivity.
      + now destruct (Hsock family).
      + destruct items as [|x [|y [|z items]]]; try reflexivity.
        now destruct (Htuple x y). }
  split; [exact Hnf|].
  intros R native original s. simpl. now rewrite Hnf.
Qed.

Lemma ungoverned_call_passes_through_witness :
  new_function example_env false false
    [VSock AF_UNIX; VStr "/run/forkserver.sock"] [] =
  Ok ([VSock AF_UNIX; VStr "/run/forkserver.sock"], []).
Proof.
  apply (ungoverned_call_passes_through example_env false false
           (VSock AF_UNIX) [VStr "/run/forkserver.sock"] []).
  left. exists AF_UNIX. repeat split; discriminate.
Defined.

(** ** Interception controller *)

Lemma captured_turn_off verbose a g s :
  captured (turn_off_internet verbose a g s) = captured s.
Proof. unfold turn_off_internet. now destruct (INTERNET_OFF s). Qed.

Lemma captured_turn_on verbose s :
  captured (turn_on_internet verbose s) = captured s.
Proof. unfold turn_on_internet. now destruct (INTERNET_OFF s). Qed.

Lemma turn_off_when_off verbose a g s :
  INTERNET_OFF s = true -> turn_off_internet verbose a g s = s.
Proof. unfold turn_off_internet. now intros ->. Qed.

Lemma turn_on_when_on verbose s :
  INTERNET_OFF s = false -> turn_on_internet verbose s = s.
Proof. unfold turn_on_internet. now intros ->. Qed.

Lemma flag_turn_off verbose a g s :
  INTERNET_OFF (turn_off_internet verbose a g s) = true.
Proof.
  unfold turn_off_internet. now destruct (INTERNET_OFF s) eqn:Hflag.
Qed.

Lemma flag_turn_on verbose s :
  INTERNET_OFF (turn_on_internet verbose s) = false.
Proof.
  unfold turn_on_internet. now destruct (INTERNET_OFF s) eqn:Hflag.
Qed.

Lemma turn_off_wraps verbose a g s :
  INTERNET_OFF s = false ->
  wrapped_with a g (turn_off_internet verbose a g s).
Proof. unfold turn_off_internet. now intros ->. Qed.

Lemma turn_on_restores verbose s :
  INTERNET_OFF s = true ->
  installed (turn_on_internet verbose s) = captured s.
Proof. unfold turn_on_internet. now intros ->. Qed.

(** A closure of [check_internet_off] is never the function it wraps. *)
Lemma wrapper_is_new original a g : check_internet_off original a g <> original.
Proof.
  intros Heq. apply (f_equal layers) in Heq. simpl in Heq. lia.
Qed.

Lemma wrapped_not_original s : wrapped s -> installed s <> captured s.
Proof.
  intros (a & g & Hw) Heq. unfold wrapped_with in Hw.
  rewrite Heq in Hw. unfold captured in Hw.
  injection Hw as Hcc _ _. symmetry in Hcc.
  now apply wrapper_is_new in Hcc.
Qed.

Lemma reachable_inv s0 s :
  INTERNET_OFF s0 = false -> installed s0 = captured s0 ->
  reachable s0 s -> controller_inv s0 s.
Proof.
  intros Hflag0 Hinst0 Hreach.
  induction Hreach as [|verbose a g s Hreach [Hcap Hinv]
                        |verbose s Hreach [Hcap Hinv]].
  - split; [reflexivity|]. now rewrite Hflag0.
  - split; [now rewrite captured_turn_off|].
    rewrite flag_turn_off.
    destruct (INTERNET_OFF s) eqn:Hflag.
    + now rewrite turn_off_when_off.
    + exists a, g. now apply turn_off_wraps.
  - split; [now rewrite captured_turn_on|].
    rewrite flag_turn_on, captured_turn_on.
    destruct (INTERNET_OFF s) eqn:Hflag.
    + now apply turn_on_restores.
    + now rewrite turn_on_when_on.
Qed.

(** The scoped guard moves between states of the controller only: a block
    that stays among them is left in one of them. *)
Lemma no_internet_reachable s0 verbose body s :
  reachable s0 s ->
  (forall s', reachable s0 s' -> reachable s0 (snd (body s'))) ->
  reachable s0 (snd (no_internet verbose body s)).
Proof.
  intros Hreach Hbody. unfold no_internet.
  pose proof (Hbody _ (reach_turn_off s0 verbose false false s Hreach))
    as Hafter.
  destruct (body (turn_off_internet verbose false false s))
    as [outcome s_body].
  simpl in *. destruct (INTERNET_OFF s); simpl; [assumption|].
  now apply reach_turn_on.
Qed.

Lemma module_load_inv create_connection bind connect current_opener s :
  reachable (module_load create_connection bind connect current_opener) s ->
  captured s = (create_connection, bind, connect) /\
  if INTERNET_OFF s then wrapped s else installed s = captured s.
Proof.
  intros Hreach. now apply reachable_inv in Hreach.
Qed.

(** C2.  After import, enabling twice and disabling once leaves the three
    primitives found at import installed, with no wrapper around them;
    disabling installs the captured primitives whatever is installed; and no
    state has more than one wrapper around a primitive. *)
Theorem enable_twice_disable_once_restores
    create_connection bind connect current_opener s :
  reachable (module_load create_connection bind connect current_opener) s ->
  (forall v1 a1 g1 v2 a2 g2 v3,
      installed (turn_on_internet v3
                   (turn_off_internet v2 a2 g2
                      (turn_off_internet v1 a1 g1 s))) =
      (create_connection, bind, connect)) /\
  (forall v any_state,
      INTERNET_OFF any_state = true ->
      installed (turn_on_internet v any_state) = captured any_state) /\
  layers (installed_create_connection s) <= S (layers create_connection) /\
  layers (installed_bind s) <= S (layers bind) /\
  layers (installed_connect s) <= S (layers connect).
Proof.
  intros Hreach. split; [|split].
  - intros v1 a1 g1 v2 a2 g2 v3.
    rewrite turn_on_restores by apply flag_turn_off.
    rewrite !captured_turn_off.
    now apply module_load_inv in Hreach as [Hcap _].
  - intros v any_state. apply turn_on_restores.
  - apply module_load_inv in Hreach as [Hcap Hinv].
    unfold captured in Hcap. injection Hcap as Hcc Hb Hc.
    destruct (INTERNET_OFF s).
    + destruct Hinv as (a & g & Hw). unfold wrapped_with, installed in Hw.
      injection Hw as -> -> ->. rewrite Hcc, Hb, Hc. simpl. lia.
    + unfold installed, captured in Hinv. injection Hinv as -> -> ->.
      rewrite Hcc, Hb, Hc. lia.
Qed.

Lemma enable_twice_disable_once_restores_witness :
  installed (turn_on_internet false
               (turn_off_internet false true false
                  (turn_off_internet true false false (example_load None)))) =
  (Native "socket.create_connection", Native "socket.socket.bind",
   Native "socket.socket.connect").
Proof.
  refine (proj1 (enable_twice_disable_once_restores
                   (Native "socket.create_connection")
                   (Native "socket.socket.bind")
                   (Native "socket.socket.connect") None (example_load None)
                   _) true false false false true false false).
  apply reach_load.
Defined.

(** C5.  The flag is lowered at import; in every state after import it is
    raised exactly when the three installed primitives are wrappers of the
    captured ones; enabling under a raised flag and disabling under a lowered
    flag return the state they were given, and so does disabling right after
    import. *)
Theorem flag_tracks_wrapping create_connection bind connect current_opener s :
  reachable (module_load create_connection bind connect current_opener) s ->
  INTERNET_OFF (module_load create_connection bind connect current_opener)
    = false /\
  (INTERNET_OFF s = true <-> wrapped s) /\
  (INTERNET_OFF s = false <-> installed s = captured s) /\
  (INTERNET_OFF s = true ->
   forall verbose a g, turn_off_internet verbose a g s = s) /\
  (INTERNET_OFF s = false ->
   forall verbose, turn_on_internet verbose s = s) /\
  (forall verbose,
      turn_on_internet verbose
        (module_load create_connection bind connect current_opener) =
      module_load create_connection bind connect current_opener).
Proof.
  intros Hreach. apply module_load_inv in Hreach as [_ Hinv].
  split; [reflexivity|].
  split; [|split; [|split; [|split]]].
  - destruct (INTERNET_OFF s); split; try easy.
    intros Hw. now apply wrapped_not_original in Hw.
  - destruct (INTERNET_OFF s); split; try easy.
    intros Heq. now apply wrapped_not_original in Hinv.
  - intros Hflag verbose a g. now apply turn_off_when_off.
  - intros Hflag verbose. now apply turn_on_when_on.
  - reflexivity.
Qed.

Lemma flag_tracks_wrapping_witness :
  INTERNET_OFF (turn_off_internet false false true (example_load None)) = true
  <-> wrapped (turn_off_internet false false true (example_load None)).
Proof.
  apply (flag_tracks_wrapping
           (Native "socket.create_connection") (Native "socket.socket.bind")
           (Native "socket.socket.connect") None
           (turn_off_internet false false true (example_load None))).
  apply reach_turn_off, reach_load.
Defined.



(** C4 (amended).  Enabling under a lowered flag saves a newly built default
    opener, whatever opener is installed, and installs an opener built with
    an empty proxy table; disabling installs the saved opener, so that after
    the matching disable the installed opener is the newly built default
    one. *)
Theorem enable_saves_fresh_default_opener verbose a g verbose' s :
  INTERNET_OFF s = false ->
  let s_on := turn_off_internet verbose a g s in
  _orig_opener s_on = Some (build_opener []) /\
  installed_opener s_on = Some (build_opener [ProxyHandler ∅]) /\
  installed_opener (turn_on_internet verbose' s_on) = _orig_opener s_on /\
  installed_opener (turn_on_internet verbose' s_on) = Some (build_opener []).
Proof.
  intros Hflag. unfold turn_off_internet, turn_on_internet.
  rewrite Hflag. simpl. repeat split.
Qed.

Lemma enable_saves_fresh_default_opener_witness :
  installed_opener
    (turn_on_internet false
       (turn_off_internet false false false
          (example_load (Some proxied_opener)))) =
  Some (build_opener []).
Proof.
  apply (enable_saves_fresh_default_opener false false false false
           (example_load (Some proxied_opener))).
  reflexivity.
Defined.

(** C4, as stated, fails: with an opener installed that goes through a
    proxy, enabling saves another opener than the installed one, and the
    matching disable does not bring the installed one back. *)
Lemma installed_opener_not_saved_nor_restored :
  let s := example_load (Some proxied_opener) in
  let s_on := turn_off_internet false false false s in
  installed_opener s = Some proxied_opener /\
  _orig_opener s_on <> installed_opener s /\
  installed_opener (turn_on_internet false s_on) <> installed_opener s.
Proof.
  repeat split; intros H; vm_compute in H; discriminate H.
Qed.

(** C9.  When the wrapper raises its [OSError], the call of the installed
    primitive ends with that error in the state it started in: flag,
    installed and captured primitives and openers are those of before. *)
Theorem blocked_call_leaves_state env {R}
    (native : string -> list value -> kwargs_t -> state -> result R * state)
    a g args kwargs msg s :
  wrapped_with a g s ->
  new_function env a g args kwargs = Err (OSError msg) ->
  socket_create_connection_call env native args kwargs s
    = (Err (OSError msg), s) /\
  socket_bind_call env native args kwargs s = (Err (OSError msg), s) /\
  socket_connect_call env native args kwargs s = (Err (OSError msg), s).
Proof.
  intros Hw Hnf. unfold wrapped_with, installed in Hw.
  injection Hw as Hcc Hb Hc.
  unfold socket_create_connection_call, socket_bind_call, socket_connect_call.
  rewrite Hcc, Hb, Hc. simpl. now rewrite Hnf.
Qed.

Lemma blocked_call_leaves_state_witness :
  let s := turn_off_internet false false false (example_load None) in
  socket_create_connection_call example_env example_native
    [VTuple [VStr "www.python.org"; VInt 80]] [] s =
  (Err (OSError (blocked_message "www.python.org")), s).
Proof.
  apply (blocked_call_leaves_state example_env example_native false false
           [VTuple [VStr "www.python.org"; VInt 80]] []
           (blocked_message "www.python.org")
           (turn_off_internet false false false (example_load None))).
  - reflexivity.
  - vm_compute. reflexivity.
Defined.

(** C10.  Enabling under a raised flag returns the state it was given, so
    the flags of the call are dropped: after an enable under a lowered flag,
    a second enable leaves the wrappers with the flags of the first and the
    saved opener as it was, and calls go through the same wrappers; only
    after a disable does an enable install wrappers with its own flags. *)
Theorem enable_while_enabled_ignores_flags v1 a1 g1 v2 a2 g2 v3 s :
  INTERNET_OFF s = false ->
  let s1 := turn_off_internet v1 a1 g1 s in
  let s2 := turn_off_internet v2 a2 g2 s1 in
  s2 = s1 /\
  wrapped_with a1 g1 s2 /\
  _orig_opener s2 = _orig_opener s1 /\
  (forall env R
          (native : string -> list value -> kwargs_t -> state ->
                    result R * state) args kwargs,
      socket_create_connection_call env native args kwargs s2 =
      call env native (check_internet_off (socket_create_connection s) a1 g1)
        args kwargs s1) /\
  wrapped_with a2 g2 (turn_off_internet v2 a2 g2 (turn_on_internet v3 s1)).
Proof.
  intros Hflag s1 s2.
  assert (Heq : s2 = s1) by apply turn_off_when_off, flag_turn_off.
  assert (Hw : wrapped_with a1 g1 s1) by now apply turn_off_wraps.
  rewrite Heq. repeat split; try assumption.
  - intros env R native args kwargs.
    unfold socket_create_connection_call, s1, turn_off_internet.
    now rewrite Hflag.
  - apply turn_off_wraps, flag_turn_on.
Qed.

Lemma enable_while_enabled_ignores_flags_witness :
  let s1 := turn_off_internet false false false (example_load None) in
  turn_off_internet false true false s1 = s1.
Proof.
  apply (enable_while_enabled_ignores_flags false false false
           false true false false (example_load None)).
  reflexivity.
Defined.

(** On the example machine: after a plain enable, an enable that asks for
    the data hosts still leaves [data.astropy.org] blocked; after a disable
    the same enable lets the call through. *)
Example data_hosts_need_disable_first :
  let s1 := turn_off_internet false false false (example_load None) in
  let s2 := turn_off_internet false true false s1 in
  let s3 := turn_off_internet false true false (turn_on_internet false s1) in
  fst (socket_create_connection_call example_env example_native
         [VTuple [VStr "data.astropy.org"; VInt 80]] [] s2) =
    Err (OSError (blocked_message "data.astropy.org")) /\
  fst (socket_create_connection_call example_env example_native
         [VTuple [VStr "data.astropy.org"; VInt 80]] [] s3) =
    Ok "socket.create_connection".
Proof. split; vm_compute; reflexivity. Qed.

(** * Further properties of the host classifier *)

Section ResolverFacts.
Context (env : environment).

Lemma resolve_host_ips_answer hostname port infos :
  getaddrinfo env hostname port = Addresses infos ->
  _resolve_host_ips env hostname port =
  Ok (list_to_set (answer_addresses infos) ∪ {[ hostname ]}).
Proof. unfold _resolve_host_ips. now intros ->. Qed.

Lemma resolve_host_ips_gaierror hostname port :
  getaddrinfo env hostname port = gaierror ->
  _resolve_host_ips env hostname port = Ok (∅ ∪ {[ hostname ]}).
Proof. unfold _resolve_host_ips. now intros ->. Qed.

Lemma resolve_host_ips_returns hostname port :
  (forall name, getaddrinfo env hostname port <> raises name) ->
  exists ips, _resolve_host_ips env hostname port = Ok ips /\ hostname ∈ ips.
Proof.
  intros Hcaught. unfold _resolve_host_ips.
  destruct (getaddrinfo env hostname port) as [infos| |name];
    unfold_result.
  - eexists. split; [reflexivity|].
    apply elem_of_union_r, elem_of_singleton_2; reflexivity.
  - eexists. split; [reflexivity|].
    apply elem_of_union_r, elem_of_singleton_2; reflexivity.
  - now destruct (Hcaught name).
Qed.

Lemma resolve_host_ips_err_inv hostname port e :
  _resolve_host_ips env hostname port = Err e ->
  exists name, e = Propagated name /\
               getaddrinfo env hostname port = raises name.
Proof.
  unfold _resolve_host_ips.
  destruct (getaddrinfo env hostname port) as [infos| |name];
    unfold_result; try discriminate.
  intros [= <-]. now exists name.
Qed.

Lemma resolvable_spec hosts host name :
  resolvable env hosts = true -> host ∈ hosts ->
  getaddrinfo env host 80 <> raises name.
Proof.
  unfold resolvable. rewrite forallb_forall. intros Hall Hin Hraises.
  apply list_elem_of_In, Hall in Hin. now rewrite Hraises in Hin.
Qed.

Lemma union_resolved_err_inv hosts valid_hosts e :
  union_resolved env hosts valid_hosts = Err e ->
  exists name host, e = Propagated name /\ host ∈ hosts /\
                    getaddrinfo env host 80 = raises name.
Proof.
  revert valid_hosts.
  induction hosts as [|valid_host rest IH]; intros valid_hosts; simpl.
  - discriminate.
  - intros H. apply bind_err in H as [H|(ips & _ & H)].
    + apply resolve_host_ips_err_inv in H as (name & -> & H).
      exists name, valid_host. repeat split; [left|assumption].
    + apply IH in H as (name & host & -> & Hin & H).
      exists name, host. repeat split; [now right|assumption].
Qed.

Lemma union_resolved_returns hosts valid_hosts :
  resolvable env hosts = true ->
  exists allow, union_resolved env hosts valid_hosts = Ok allow.
Proof.
  intros Hres.
  destruct (union_resolved env hosts valid_hosts) as [allow|e] eqn:Hu.
  - now exists allow.
  - apply union_resolved_err_inv in Hu as (name & host & _ & Hin & Hraises).
    now apply (resolvable_spec _ _ name Hres) in Hin.
Qed.

Lemma union_resolved_contains hosts valid_hosts allow host :
  union_resolved env hosts valid_hosts = Ok allow ->
  host ∈ hosts -> host ∈ allow.
Proof.
  revert valid_hosts.
  induction hosts as [|valid_host rest IH]; intros valid_hosts; simpl.
  - intros _ Hin. now apply elem_of_nil in Hin.
  - intros H Hin. apply bind_ok in H as (ips & Hips & H).
    apply elem_of_cons in Hin as [->|Hin].
    + apply resolve_host_ips_inv in Hips as [Hself _].
      apply union_resolved_grows in H. set_solver.
    + now apply (IH _ H).
Qed.

Lemma union_resolved_app hosts more valid_hosts :
  union_resolved env (hosts ++ more) valid_hosts =
  union_resolved env hosts valid_hosts ≫= union_resolved env more.
Proof.
  revert valid_hosts.
  induction hosts as [|valid_host rest IH]; intros valid_hosts; simpl.
  - reflexivity.
  - destruct (_resolve_host_ips env valid_host 80) as [ips|e];
      unfold_result; [apply IH | reflexivity].
Qed.

Lemma union_resolved_mono hosts valid_hosts valid_hosts' allow allow' :
  union_resolved env hosts valid_hosts = Ok allow ->
  union_resolved env hosts valid_hosts' = Ok allow' ->
  valid_hosts ⊆ valid_hosts' -> allow ⊆ allow'.
Proof.
  revert valid_hosts valid_hosts'.
  induction hosts as [|valid_host rest IH];
    intros valid_hosts valid_hosts'; simpl.
  - intros H H' Hsub. now simplify_eq.
  - intros H H' Hsub.
    apply bind_ok in H as (ips & Hips & H).
    apply bind_ok in H' as (ips' & Hips' & H').
    rewrite Hips in Hips'. injection Hips' as <-.
    apply (IH _ _ H H'). now apply union_mono_r.
Qed.

Lemma extend_as_union a g valid_hosts :
  extend_valid_hosts env a g valid_hosts =
  union_resolved env (allowed_names a g) valid_hosts.
Proof. now destruct a, g. Qed.

Lemma extend_valid_hosts_wider a1 g1 a2 g2 valid_hosts allow1 allow2 :
  access_level a1 g1 <= access_level a2 g2 ->
  extend_valid_hosts env a1 g1 valid_hosts = Ok allow1 ->
  extend_valid_hosts env a2 g2 valid_hosts = Ok allow2 ->
  allow1 ⊆ allow2.
Proof.
  intros Hle H1 H2.
  assert (Hsuffix : union_resolved env GITHUB_HOSTS valid_hosts = Ok allow1 ->
                    union_resolved env ASTROPY_HOSTS valid_hosts = Ok allow2 ->
                    allow1 ⊆ allow2).
  { clear. intros Hg Ha. unfold ASTROPY_HOSTS in Ha.
    rewrite union_resolved_app in Ha.
    apply bind_ok in Ha as (mid & Hmid & Ha).
    apply union_resolved_grows in Hmid.
    exact (union_resolved_mono _ _ _ _ _ Hg Ha Hmid). }
  destruct a1, g1, a2, g2; simpl in Hle; try lia;
    unfold extend_valid_hosts in H1, H2;
    try (now apply Hsuffix);
    try (rewrite H1 in H2; now simplify_eq);
    simplify_eq; now apply union_resolved_grows in H2.
Qed.
End ResolverFacts.

Lemma shared_member (X Y : gset string) (x : string) :
  x ∈ X -> x ∈ Y -> 0 < size (X ∩ Y).
Proof.
  intros HX HY. apply size_pos_iff. intros Hempty.
  assert (Hin : x ∈ X ∩ Y) by now apply elem_of_intersection.
  rewrite Hempty in Hin. now apply elem_of_empty in Hin.
Qed.

Section GuardFacts.
Context (env : environment).

Lemma remote_allowed a g args kwargs host port addr_arg base allow ids x :
  internet_call args host port addr_arg base ->
  is_local_name env (VStr host) = false ->
  extend_valid_hosts env a g base = Ok allow ->
  _resolve_host_ips env host 80 = Ok ids ->
  x ∈ ids -> x ∈ allow ->
  new_function env a g args kwargs = Ok (args, kwargs).
Proof.
  intros Hshape Hremote Hallow Hids Hx Hx'.
  rewrite (remote_name_checked env _ _ _ kwargs _ _ _ _ _ _
             Hshape Hremote Hallow Hids).
  destruct (decide _) as [|Hzero]; [reflexivity|].
  exfalso. now apply Hzero, (shared_member _ _ x).
Qed.

Lemma remote_blocked a g args kwargs host port addr_arg base allow ids :
  internet_call args host port addr_arg base ->
  is_local_name env (VStr host) = false ->
  extend_valid_hosts env a g base = Ok allow ->
  _resolve_host_ips env host 80 = Ok ids ->
  (forall x, x ∈ ids -> x ∉ allow) ->
  new_function env a g args kwargs = Err (OSError (blocked_message host)).
Proof.
  intros Hshape Hremote Hallow Hids Hdisjoint.
  rewrite (remote_name_checked env _ _ _ kwargs _ _ _ _ _ _
             Hshape Hremote Hallow Hids).
  destruct (decide _) as [Hpos|]; [|reflexivity].
  apply size_pos_elem_of in Hpos as [x Hx].
  apply elem_of_intersection in Hx as [Hx Hx'].
  now destruct (Hdisjoint x Hx).
Qed.

Lemma allow_list_raises a g args kwargs host port addr_arg base e :
  internet_call args host port addr_arg base ->
  extend_valid_hosts env a g base = Err e ->
  new_function env a g args kwargs = Err e.
Proof.
  intros Hshape Hallow.
  rewrite (internet_call_guard env _ _ _ kwargs _ _ _ _ Hshape).
  unfold guard. now rewrite Hallow.
Qed.

Lemma remote_resolution_raises
    a g args kwargs host port addr_arg base allow e :
  internet_call args host port addr_arg base ->
  is_local_name env (VStr host) = false ->
  extend_valid_hosts env a g base = Ok allow ->
  _resolve_host_ips env host 80 = Err e ->
  new_function env a g args kwargs = Err e.
Proof.
  intros Hshape Hremote Hallow Hids.
  rewrite (internet_call_guard env _ _ _ kwargs _ _ _ _ Hshape).
  unfold guard. rewrite Hallow. unfold_result.
  rewrite (locate_target_remote env _ _ _ Hremote). unfold_result.
  now rewrite Hids.
Qed.

Lemma rewritten_args_remote args addr_arg host port :
  is_local_name env (VStr host) = false ->
  rewritten_args env args addr_arg host port = args.
Proof. unfold rewritten_args. now intros ->. Qed.

Lemma rewritten_args_local args addr_arg host port :
  is_local_name env (VStr host) = true ->
  rewritten_args env args addr_arg host port =
  <[ addr_arg := VTuple [VStr "localhost"; port] ]> args.
Proof. unfold rewritten_args. now intros ->. Qed.

(** Whatever the arguments, the flags reach the outcome of [new_function]
    through [guard] only. *)
Lemma new_function_flags args kwargs :
  (forall a g a' g',
      new_function env a g args kwargs = new_function env a' g' args kwargs) \/
  (exists host addr_arg base,
      forall a g, new_function env a g args kwargs =
                  guard env a g args kwargs host addr_arg base).
Proof.
  destruct args as [|arg0 rest]; [left; reflexivity|].
  destruct arg0 as [family|items|str|n]; try (left; reflexivity).
  - unfold new_function. simpl.
    destruct (bool_decide (family ∈ [AF_INET; AF_INET6])); simpl;
      [|left; reflexivity].
    destruct rest as [|addr rest]; [left; reflexivity|].
    unfold arg. simpl. unfold_result.
    destruct (subscript addr 0) as [host|e].
    + right. eexists _, _, _. intros a g. reflexivity.
    + left. reflexivity.
  - destruct items as [|x [|y [|z items]]]; try (left; reflexivity).
    right. eexists _, _, _. intros a g. reflexivity.
Qed.

Lemma guard_wider a1 g1 a2 g2 args kwargs host addr_arg base r :
  access_level a1 g1 <= access_level a2 g2 ->
  resolvable env (allowed_names a2 g2) = true ->
  guard env a1 g1 args kwargs host addr_arg base = Ok r ->
  guard env a2 g2 args kwargs host addr_arg base = Ok r.
Proof.
  intros Hle Hres H. unfold guard in *.
  apply bind_ok in H as (allow1 & Hallow1 & H).
  destruct (union_resolved_returns env _ base Hres) as [allow2 Hallow2].
  rewrite <- extend_as_union in Hallow2. rewrite Hallow2. unfold_result.
  pose proof (extend_valid_hosts_wider env _ _ _ _ _ _ _
                Hle Hallow1 Hallow2) as Hsub.
  destruct (locate_target env args host addr_arg)
    as [[[h ids] args']|e]; [|discriminate].
  destruct (decide (0 < size (ids ∩ allow1))) as [Hpos|]; [|discriminate].
  destruct (decide (0 < size (ids ∩ allow2))) as [|Hzero]; [exact H|].
  exfalso. apply Hzero.
  apply size_pos_elem_of in Hpos as [x Hx].
  apply elem_of_intersection in Hx as [Hx Hx'].
  apply (shared_member _ _ x); [assumption|]. now apply Hsub.
Qed.
End GuardFacts.

(** X1.  A member of the answer set of [_resolve_host_ips] is the host name
    given or an address of an entry of the resolver's answer, and each of
    these is a member: nothing is lost and nothing else is added. *)
Theorem resolve_host_ips_members env hostname port infos :
  getaddrinfo env hostname port = Addresses infos ->
  exists ips,
    _resolve_host_ips env hostname port = Ok ips /\
    forall x, x ∈ ips <->
              x = hostname \/
              exists info, info ∈ infos /\ sa_address (ai_sockaddr info) = x.
Proof.
  intros Hanswer. eexists. split.
  - exact (resolve_host_ips_answer env _ _ _ Hanswer).
  - intros x. rewrite elem_of_union, elem_of_list_to_set, elem_of_singleton.
    unfold answer_addresses. rewrite list_elem_of_In, in_map_iff.
    split.
    + intros [(info & <- & Hin) | ->]; [right|now left].
      exists info. now rewrite list_elem_of_In.
    + intros [ -> | (info & Hin & <-)]; [now right|left].
      exists info. now rewrite <- list_elem_of_In.
Qed.

Lemma resolve_host_ips_members_witness :
  exists ips,
    _resolve_host_ips example_env "data.astropy.org" 80 = Ok ips /\
    forall x, x ∈ ips <->
              x = "data.astropy.org" \/
              exists info, info ∈ one_address "192.0.2.10" 80 /\
                           sa_address (ai_sockaddr info) = x.
Proof.
  apply (resolve_host_ips_members example_env "data.astropy.org" 80
           (one_address "192.0.2.10" 80)).
  reflexivity.
Defined.

(** X2.  A call of internet-family shape to one of the loopback names of its
    shape ([localhost], [127.0.0.1], and [::1] for socket methods) is handed
    to the original primitive, whatever the resolver answers for the name, as
    long as it raises nothing but [socket.gaierror], and whatever the
    flags, once their allow-list is resolved. *)
Theorem loopback_name_allowed
    env a g args kwargs host port addr_arg base allow :
  internet_call args host port addr_arg base ->
  host ∈ base ->
  (forall name, getaddrinfo env host 80 <> raises name) ->
  extend_valid_hosts env a g base = Ok allow ->
  new_function env a g args kwargs =
  Ok (rewritten_args env args addr_arg host port, kwargs).
Proof.
  intros Hshape Hbase Hcaught Hallow.
  destruct (is_local_name env (VStr host)) eqn:Hlocal.
  - rewrite (rewritten_args_local env _ _ _ _ Hlocal).
    exact (local_name_allowed env _ _ _ kwargs _ _ _ _ _
             Hshape Hlocal Hallow).
  - rewrite (rewritten_args_remote env _ _ _ _ Hlocal).
    destruct (resolve_host_ips_returns env _ _ Hcaught) as (ids & Hids & Hin).
    apply (remote_allowed env _ _ _ kwargs _ _ _ _ _ _ host
             Hshape Hlocal Hallow Hids Hin).
    apply extend_valid_hosts_grows in Hallow. now apply Hallow.
Qed.

Lemma loopback_name_allowed_witness :
  new_function example_env false false
    [VTuple [VStr "127.0.0.1"; VInt 8000]] [] =
  Ok ([VTuple [VStr "127.0.0.1"; VInt 8000]], []).
Proof.
  apply (loopback_name_allowed example_env false false
           [VTuple [VStr "127.0.0.1"; VInt 8000]] []
           "127.0.0.1" (VInt 8000) 0 {[ "localhost"; "127.0.0.1" ]}
           {[ "localhost"; "127.0.0.1" ]}
           (create_connection_call "127.0.0.1" (VInt 8000) [])).
  - vm_compute. reflexivity.
  - intros name. vm_compute. discriminate.
  - reflexivity.
Defined.

(** X3.  With no flag set, a call of internet-family shape is refused with
    the wrapper's [OSError] when the host is not the machine's own name, is
    not a loopback name of the shape, and the resolver raises
    [socket.gaierror] or answers with addresses none of which is a loopback
    name of the shape. *)
Theorem unlisted_host_blocked env args kwargs host port addr_arg base :
  internet_call args host port addr_arg base ->
  is_local_name env (VStr host) = false ->
  host ∉ base ->
  match getaddrinfo env host 80 with
  | Addresses infos =>
      Forall (fun address => address ∉ base) (answer_addresses infos)
  | gaierror => True
  | raises _ => False
  end ->
  new_function env false false args kwargs =
  Err (OSError (blocked_message host)).
Proof.
  intros Hshape Hremote Hhost Hanswer.
  destruct (getaddrinfo env host 80) as [infos| |name] eqn:Hgai;
    [| |contradiction].
  - apply (remote_blocked env _ _ _ kwargs _ _ _ _ _ _ Hshape Hremote
             (extend_valid_hosts_no_flags env base)
             (resolve_host_ips_answer env _ _ _ Hgai)).
    intros x Hx. apply elem_of_union in Hx as [Hx|Hx].
    + apply elem_of_list_to_set in Hx.
      rewrite Forall_forall in Hanswer. now apply Hanswer.
    + now apply elem_of_singleton in Hx as ->.
  - apply (remote_blocked env _ _ _ kwargs _ _ _ _ _ _ Hshape Hremote
             (extend_valid_hosts_no_flags env base)
             (resolve_host_ips_gaierror env _ _ Hgai)).
    intros x Hx. apply elem_of_union in Hx as [Hx|Hx].
    + now apply elem_of_empty in Hx.
    + now apply elem_of_singleton in Hx as ->.
Qed.

Lemma unlisted_host_blocked_witness :
  new_function example_env false false
    [VSock AF_INET; VTuple [VStr "www.python.org"; VInt 443]] [] =
  Err (OSError (blocked_message "www.python.org")).
Proof.
  apply (unlisted_host_blocked example_env
           [VSock AF_INET; VTuple [VStr "www.python.org"; VInt 443]] []
           "www.python.org" (VInt 443) 1
           {[ "localhost"; "127.0.0.1"; "::1" ]}).
  - apply (socket_method_call AF_INET "www.python.org" (VInt 443) [] []).
    left. reflexivity.
  - reflexivity.
  - vm_compute. discriminate.
  - vm_compute. exact I.
Defined.

(** X4.  The IPv6 loopback address is a loopback name for socket methods
    only.  On a machine not named [::1] whose resolver answers [::1] with
    that address alone, and with no flag set, [sock.connect] and [sock.bind]
    to [::1] are handed to the original with their arguments as they are,
    while [create_connection(("::1", port))] is refused. *)
Theorem ipv6_loopback_for_socket_methods_only env infos :
  is_local_name env (VStr "::1") = false ->
  getaddrinfo env "::1" 80 = Addresses infos ->
  Forall (fun address => address = "::1") (answer_addresses infos) ->
  (forall family port more rest kwargs,
      family = AF_INET \/ family = AF_INET6 ->
      new_function env false false
        (VSock family :: VTuple (VStr "::1" :: port :: more) :: rest) kwargs =
      Ok (VSock family :: VTuple (VStr "::1" :: port :: more) :: rest,
          kwargs)) /\
  (forall port rest kwargs,
      new_function env false false
        (VTuple [VStr "::1"; port] :: rest) kwargs =
      Err (OSError (blocked_message "::1"))).
Proof.
  intros Hremote Hgai Hanswer.
  pose proof (resolve_host_ips_answer env _ _ _ Hgai) as Hids.
  split.
  - intros family port more rest kwargs Hfamily.
    apply (remote_allowed env _ _ _ kwargs _ _ _ _ _ _ "::1"
             (socket_method_call family "::1" port more rest Hfamily)
             Hremote (extend_valid_hosts_no_flags env _) Hids).
    + apply elem_of_union_r, elem_of_singleton_2; reflexivity.
    + apply elem_of_union_r, elem_of_singleton_2; reflexivity.
  - intros port rest kwargs.
    apply (remote_blocked env _ _ _ kwargs _ _ _ _ _ _
             (create_connection_call "::1" port rest)
             Hremote (extend_valid_hosts_no_flags env _) Hids).
    intros x Hx.
    assert (Hx' : x = "::1").
    { apply elem_of_union in Hx as [Hx|Hx].
      - apply elem_of_list_to_set in Hx.
        rewrite Forall_forall in Hanswer. now apply Hanswer.
      - now apply elem_of_singleton in Hx. }
    subst x. vm_compute. discriminate.
Qed.

Lemma ipv6_loopback_for_socket_methods_only_witness :
  new_function hosts_file_env false false
    [VTuple [VStr "::1"; VInt 8000]] [] =
  Err (OSError (blocked_message "::1")).
Proof.
  refine (proj2 (ipv6_loopback_for_socket_methods_only hosts_file_env
                   (one_address "::1" 80) _ _ _) (VInt 8000) [] []).
  - reflexivity.
  - reflexivity.
  - repeat constructor.
Defined.

(** X5.  Any overlap is enough: a host that is not the machine's own name
    is handed to the original primitive, arguments as they are, as soon as
    one address of the resolver's answer for it is in the allow-list, be it
    a loopback address or an address of an allowed domain. *)
Theorem shared_address_allowed
    env a g args kwargs host port addr_arg base allow infos address :
  internet_call args host port addr_arg base ->
  is_local_name env (VStr host) = false ->
  extend_valid_hosts env a g base = Ok allow ->
  getaddrinfo env host 80 = Addresses infos ->
  address ∈ answer_addresses infos ->
  address ∈ allow ->
  new_function env a g args kwargs = Ok (args, kwargs).
Proof.
  intros Hshape Hremote Hallow Hgai Hin Hallowed.
  apply (remote_allowed env _ _ _ kwargs _ _ _ _ _ _ address
           Hshape Hremote Hallow (resolve_host_ips_answer env _ _ _ Hgai));
    [|assumption].
  now apply elem_of_union_l, elem_of_list_to_set.
Qed.

Lemma shared_address_allowed_witness :
  new_function hosts_file_env false false
    [VTuple [VStr "intranet"; VInt 8000]] [] =
  Ok ([VTuple [VStr "intranet"; VInt 8000]], []).
Proof.
  apply (shared_address_allowed hosts_file_env false false
           [VTuple [VStr "intranet"; VInt 8000]] []
           "intranet" (VInt 8000) 0 {[ "localhost"; "127.0.0.1" ]}
           {[ "localhost"; "127.0.0.1" ]}
           (one_address "127.0.0.1" 80) "127.0.0.1"
           (create_connection_call "intranet" (VInt 8000) [])).
  - reflexivity.
  - reflexivity.
  - reflexivity.
  - left.
  - vm_compute. reflexivity.
Defined.

(** X6.  A host named in the list a flag stands for is handed to the
    original primitive under that flag, also when the resolver knows none of
    the names: the names themselves are put in the allow-list.  The resolver
    may raise [socket.gaierror] on the names of the list, nothing else. *)
Theorem listed_name_allowed env a g args kwargs host port addr_arg base :
  internet_call args host port addr_arg base ->
  host ∈ allowed_names a g ->
  resolvable env (allowed_names a g) = true ->
  new_function env a g args kwargs =
  Ok (rewritten_args env args addr_arg host port, kwargs).
Proof.
  intros Hshape Hlisted Hres.
  destruct (union_resolved_returns env _ base Hres) as [allow Hallow].
  pose proof (union_resolved_contains env _ _ _ _ Hallow Hlisted) as Hin.
  rewrite <- extend_as_union in Hallow.
  destruct (is_local_name env (VStr host)) eqn:Hlocal.
  - rewrite (rewritten_args_local env _ _ _ _ Hlocal).
    exact (local_name_allowed env _ _ _ kwargs _ _ _ _ _
             Hshape Hlocal Hallow).
  - rewrite (rewritten_args_remote env _ _ _ _ Hlocal).
    destruct (resolve_host_ips_returns env host 80) as (ids & Hids & Hself).
    { intros name. exact (resolvable_spec env _ _ name Hres Hlisted). }
    exact (remote_allowed env _ _ _ kwargs _ _ _ _ _ _ host
             Hshape Hlocal Hallow Hids Hself Hin).
Qed.

Lemma listed_name_allowed_witness :
  new_function example_env false true
    [VTuple [VStr "www.github.io"; VInt 443]] [] =
  Ok ([VTuple [VStr "www.github.io"; VInt 443]], []).
Proof.
  apply (listed_name_allowed example_env false true
           [VTuple [VStr "www.github.io"; VInt 443]] []
           "www.github.io" (VInt 443) 0 {[ "localhost"; "127.0.0.1" ]}
           (create_connection_call "www.github.io" (VInt 443) [])).
  - left.
  - reflexivity.
Defined.

(** X7.  The flags only widen access, in the order none, GitHub, Astropy
    ([allow_astropy_data] makes [allow_github_data] irrelevant): a call that
    is handed to the original under some flags is handed to it with the same
    arguments under flags that grant at least as much, provided the resolver
    raises nothing but [socket.gaierror] on the names these stand for. *)
Theorem wider_flags_allow_more env a1 g1 a2 g2 args kwargs r :
  access_level a1 g1 <= access_level a2 g2 ->
  resolvable env (allowed_names a2 g2) = true ->
  new_function env a1 g1 args kwargs = Ok r ->
  new_function env a2 g2 args kwargs = Ok r.
Proof.
  intros Hle Hres H.
  destruct (new_function_flags env args kwargs)
    as [Hsame|(host & addr_arg & base & Hguard)].
  - now rewrite (Hsame a2 g2 a1 g1).
  - rewrite Hguard in *. now apply (guard_wider env a1 g1).
Qed.

Lemma wider_flags_allow_more_witness :
  new_function example_env true false
    [VSock AF_INET6; VTuple [VStr "::1"; VInt 80; VInt 0; VInt 0]] [] =
  Ok ([VSock AF_INET6; VTuple [VStr "::1"; VInt 80; VInt 0; VInt 0]], []).
Proof.
  apply (wider_flags_allow_more example_env false false true false).
  - vm_compute. lia.
  - reflexivity.
  - reflexivity.
Defined.

(** X8.  A call of internet-family shape has three outcomes only: it is
    handed to the original primitive on the original (or rewritten)
    arguments, it is refused with the [OSError] that names the host, or an
    exception the resolver raised on the host or on a name of the flags'
    list goes through.  The wrapper raises no [IndexError] and no
    [TypeError] on such a call. *)
Theorem internet_call_outcomes env a g args kwargs host port addr_arg base :
  internet_call args host port addr_arg base ->
  new_function env a g args kwargs =
    Ok (rewritten_args env args addr_arg host port, kwargs) \/
  new_function env a g args kwargs = Err (OSError (blocked_message host)) \/
  exists name name_resolved,
    new_function env a g args kwargs = Err (Propagated name) /\
    getaddrinfo env name_resolved 80 = raises name /\
    (name_resolved = host \/ name_resolved ∈ allowed_names a g).
Proof.
  intros Hshape.
  destruct (extend_valid_hosts env a g base) as [allow|e] eqn:Hallow.
  2:{ right. right.
      rewrite (allow_list_raises env _ _ _ kwargs _ _ _ _ _ Hshape Hallow).
      rewrite extend_as_union in Hallow.
      apply union_resolved_err_inv in Hallow as (name & h & -> & Hin & Hgai).
      exists name, h. auto. }
  destruct (is_local_name env (VStr host)) eqn:Hlocal.
  { left. rewrite (rewritten_args_local env _ _ _ _ Hlocal).
    exact (local_name_allowed env _ _ _ kwargs _ _ _ _ _
             Hshape Hlocal Hallow). }
  rewrite (rewritten_args_remote env _ _ _ _ Hlocal).
  destruct (_resolve_host_ips env host 80) as [ids|e] eqn:Hids.
  - rewrite (remote_name_checked env _ _ _ kwargs _ _ _ _ _ _
               Hshape Hlocal Hallow Hids).
    destruct (decide _); auto.
  - right. right.
    rewrite (remote_resolution_raises env _ _ _ kwargs _ _ _ _ _ _
               Hshape Hlocal Hallow Hids).
    apply resolve_host_ips_err_inv in Hids as (name & -> & Hgai).
    exists name, host. auto.
Qed.

Lemma internet_call_outcomes_witness :
  new_function example_env false false [VTuple [VStr "a..b"; VInt 80]] [] =
    Ok (rewritten_args example_env [VTuple [VStr "a..b"; VInt 80]] 0
          "a..b" (VInt 80), []) \/
  new_function example_env false false [VTuple [VStr "a..b"; VInt 80]] [] =
    Err (OSError (blocked_message "a..b")) \/
  exists name name_resolved,
    new_function example_env false false [VTuple [VStr "a..b"; VInt 80]] [] =
      Err (Propagated name) /\
    getaddrinfo example_env name_resolved 80 = raises name /\
    (name_resolved = "a..b" \/ name_resolved ∈ allowed_names false false).
Proof.
  apply (internet_call_outcomes example_env false false
           [VTuple [VStr "a..b"; VInt 80]] [] "a..b" (VInt 80) 0
           {[ "localhost"; "127.0.0.1" ]}).
  apply create_connection_call.
Defined.

(** X9.  With no flag set, the wrapper raises [IndexError] in these cases
    and no other: the call has no positional argument (the address was
    given by keyword); or the first argument is a socket of family [AF_INET]
    or [AF_INET6] and there is no address argument, or the address has no
    first item, or its first item is the machine's own name and it has no
    second item. *)
Theorem wrapper_IndexError_iff env args kwargs :
  new_function env false false args kwargs = Err IndexError <->
  args = [] \/
  exists family rest,
    (family = AF_INET \/ family = AF_INET6) /\
    args = VSock family :: rest /\
    (rest = [] \/
     exists addr more,
       rest = addr :: more /\
       (subscript addr 0 = Err IndexError \/
        exists host,
          subscript addr 0 = Ok host /\
          is_local_name env host = true /\
          subscript addr 1 = Err IndexError)).
Proof.
  assert (Hremote : forall (host : value) args' addr_arg base,
             is_local_name env host = false ->
             guard env false false args' kwargs host addr_arg base
             <> Err IndexError).
  { intros host args' addr_arg base Hlocal. unfold guard. simpl.
    unfold_result. unfold locate_target. rewrite Hlocal.
    destruct host as [family|items|h|n]; try discriminate.
    destruct (_resolve_host_ips env h 80) as [ids|e] eqn:Hids; unfold_result.
    - destruct (decide _); discriminate.
    - apply resolve_host_ips_err_inv in Hids as (name & -> & _).
      discriminate. }
  split.
  - destruct args as [|arg0 rest]; [now left|]. intros H. right.
    destruct arg0 as [family|items|str|n]; try discriminate H.
    + unfold new_function in H. simpl in H.
      destruct (bool_decide (family ∈ [AF_INET; AF_INET6])) eqn:Hfamily;
        simpl in H; [|discriminate H].
      apply bool_decide_eq_true in Hfamily.
      exists family, rest. split; [|split; [reflexivity|]].
      { apply elem_of_cons in Hfamily as [->|Hfamily]; [now left|].
        apply elem_of_cons in Hfamily as [->|Hfamily]; [now right|].
        now apply elem_of_nil in Hfamily. }
      destruct rest as [|addr more]; [now left|]. right.
      exists addr, more. split; [reflexivity|].
      unfold arg in H. simpl in H. unfold_result.
      destruct (subscript addr 0) as [host|e] eqn:Hhost;
        [|left; congruence].
      right. exists host. split; [reflexivity|].
      destruct (is_local_name env host) eqn:Hlocal;
        [|now apply Hremote in H].
      split; [reflexivity|].
      unfold guard, locate_target in H. simpl in H. rewrite Hlocal in H.
      unfold arg in H. simpl in H. unfold_result.
      destruct (subscript addr 1) as [port|e]; [|congruence].
      destruct (decide _); discriminate H.
    + exfalso. destruct items as [|x [|y [|z items]]]; try discriminate H.
      unfold new_function in H. simpl in H. unfold_result.
      destruct (is_local_name env x) eqn:Hlocal;
        [|now apply Hremote in H].
      unfold guard, locate_target in H. simpl in H. rewrite Hlocal in H.
      simpl in H. destruct (decide _); discriminate H.
  - intros [->|(family & rest & Hfamily & -> & Hrest)]; [reflexivity|].
    unfold new_function. simpl.
    rewrite bool_decide_eq_true_2.
    2:{ destruct Hfamily as [->| ->]; [left | right; left]. }
    simpl.
    destruct Hrest as [->|(addr & more & -> & Haddr)]; [reflexivity|].
    unfold arg. simpl. unfold_result.
    destruct Haddr as [->|(host & -> & Hlocal & Hport)]; [reflexivity|].
    unfold guard, locate_target. simpl. rewrite Hlocal.
    unfold arg. simpl. unfold_result. now rewrite Hport.
Qed.

(** X10.  The message of the wrapper's [OSError] tells the host: two hosts
    with the same message are the same host. *)
Theorem blocked_message_tells_host host host' :
  blocked_message host = blocked_message host' -> host = host'.
Proof.
  assert (Hcancel : forall front rest rest' : string,
             front +:+ rest = front +:+ rest' -> rest = rest').
  { induction front as [|c front IH]; intros rest rest' H; simpl in H.
    - exact H.
    - injection H as H. now apply IH. }
  unfold blocked_message. intros H.
  now do 3 apply Hcancel in H.
Qed.

Lemma blocked_message_tells_host_witness :
  "www.python.org" = "www.python.org".
Proof.
  apply (blocked_message_tells_host "www.python.org" "www.python.org").
  reflexivity.
Defined.

(** * Further properties of the controller *)

Lemma no_internet_under_raised_flag verbose body s :
  INTERNET_OFF s = true -> no_internet verbose body s = body s.
Proof.
  intros Hflag. unfold no_internet.
  rewrite Hflag, turn_off_when_off by assumption.
  now destruct (body s).
Qed.

Lemma call_wrapper_raises env {R}
    (native : string -> list value -> kwargs_t -> state -> result R * state)
    original a g args kwargs e s :
  new_function env a g args kwargs = Err e ->
  call env native (check_internet_off original a g) args kwargs s =
  (Err e, s).
Proof. intros Hnf. simpl. now rewrite Hnf. Qed.

(** X11.  After import, and as long as nobody else installs an opener,
    while the flag is raised the installed opener is the one built with an
    empty proxy table and the saved one is a default opener; while the flag
    is lowered the installed opener is the one found at import, nothing being
    saved, or the default opener a disable has put there. *)
Theorem openers_follow_flag create_connection bind connect current_opener s :
  reachable (module_load create_connection bind connect current_opener) s ->
  (INTERNET_OFF s = true ->
   installed_opener s = Some (build_opener [ProxyHandler ∅]) /\
   _orig_opener s = Some (build_opener [])) /\
  (INTERNET_OFF s = false ->
   (installed_opener s = current_opener /\ _orig_opener s = None) \/
   (installed_opener s = Some (build_opener []) /\
    _orig_opener s = Some (build_opener []))).
Proof.
  intros Hreach.
  induction Hreach as [|verbose a g s Hreach [Hon Hoff]
                        |verbose s Hreach [Hon Hoff]].
  - split; [discriminate|]. intros _. now left.
  - destruct (decide (INTERNET_OFF s = true)) as [Hflag|Hflag].
    + rewrite turn_off_when_off by assumption. now split.
    + apply not_true_is_false in Hflag.
      unfold turn_off_internet. rewrite Hflag. simpl.
      split; [now split|discriminate].
  - destruct (decide (INTERNET_OFF s = true)) as [Hflag|Hflag].
    + unfold turn_on_internet. rewrite Hflag. simpl.
      split; [discriminate|]. intros _. right.
      destruct (Hon Hflag) as [_ Hsaved]. now split.
    + apply not_true_is_false in Hflag.
      rewrite turn_on_when_on by assumption. now split.
Qed.

Lemma openers_follow_flag_witness :
  installed_opener
    (turn_off_internet false false false
       (example_load (Some proxied_opener))) =
    Some (build_opener [ProxyHandler ∅]) /\
  _orig_opener
    (turn_off_internet false false false
       (example_load (Some proxied_opener))) =
    Some (build_opener []).
Proof.
  refine (proj1 (openers_follow_flag
                   (Native "socket.create_connection")
                   (Native "socket.socket.bind")
                   (Native "socket.socket.connect")
                   (Some proxied_opener)
                   (turn_off_internet false false false
                      (example_load (Some proxied_opener))) _) _).
  - apply reach_turn_off, reach_load.
  - reflexivity.
Defined.

(** X12.  After import, whenever the flag is lowered, a call of
    [socket.create_connection], [sock.bind] or [sock.connect] is the call of
    the primitive found at import, on the same arguments: no wrapper is in
    the way, whatever was enabled and disabled before. *)
Theorem disabled_calls_reach_originals env {R}
    (native : string -> list value -> kwargs_t -> state -> result R * state)
    create_connection bind connect current_opener s args kwargs :
  reachable (module_load create_connection bind connect current_opener) s ->
  INTERNET_OFF s = false ->
  socket_create_connection_call env native args kwargs s =
    call env native create_connection args kwargs s /\
  socket_bind_call env native args kwargs s =
    call env native bind args kwargs s /\
  socket_connect_call env native args kwargs s =
    call env native connect args kwargs s.
Proof.
  intros Hreach Hflag.
  apply module_load_inv in Hreach as [Hcap Hinv].
  rewrite Hflag, Hcap in Hinv. unfold installed in Hinv.
  injection Hinv as Hcc Hb Hc.
  unfold socket_create_connection_call, socket_bind_call,
    socket_connect_call.
  now rewrite Hcc, Hb, Hc.
Qed.

Lemma disabled_calls_reach_originals_witness :
  let s := turn_on_internet false
             (turn_off_internet false true false (example_load None)) in
  socket_create_connection_call example_env example_native
    [VTuple [VStr "www.python.org"; VInt 80]] [] s =
  (Ok "socket.create_connection", s).
Proof.
  refine (proj1 (disabled_calls_reach_originals example_env example_native
                   (Native "socket.create_connection")
                   (Native "socket.socket.bind")
                   (Native "socket.socket.connect") None
                   (turn_on_internet false
                      (turn_off_internet false true false
                         (example_load None)))
                   [VTuple [VStr "www.python.org"; VInt 80]] [] _ _)).
  - apply reach_turn_on, reach_turn_off, reach_load.
  - reflexivity.
Defined.

(** X13.  Started under a lowered flag, a cycle of enable and disable
    without output installs the captured primitives, and a further such
    cycle, with any flags, changes nothing more: cycles do not pile up. *)
Theorem quiet_cycle_idempotent a g a' g' s :
  INTERNET_OFF s = false ->
  installed (quiet_cycle a g s) = captured s /\
  quiet_cycle a' g' (quiet_cycle a g s) = quiet_cycle a g s.
Proof.
  intros Hflag. unfold quiet_cycle, turn_on_internet, turn_off_internet.
  rewrite Hflag. simpl. split; reflexivity.
Qed.

Lemma quiet_cycle_idempotent_witness :
  quiet_cycle true false
    (quiet_cycle false false (example_load (Some proxied_opener))) =
  quiet_cycle false false (example_load (Some proxied_opener)).
Proof.
  apply (quiet_cycle_idempotent false false true false
           (example_load (Some proxied_opener))).
  reflexivity.
Defined.

(** X14.  Entered under a raised flag, the scoped guard does nothing at
    all: the block runs in the state of the entry and its outcome and state
    are those of the guard; in particular the wrappers keep the flags they
    were installed with. *)
Theorem no_internet_noop_when_enabled verbose body s :
  INTERNET_OFF s = true ->
  no_internet verbose body s = body s.
Proof.
  intros Hflag. unfold no_internet. rewrite Hflag.
  rewrite (turn_off_when_off verbose false false s Hflag).
  now destruct (body s).
Qed.

Lemma no_internet_noop_when_enabled_witness :
  let s := turn_off_internet false true false (example_load None) in
  no_internet false (open_connection "data.astropy.org" 80) s =
  open_connection "data.astropy.org" 80 s.
Proof.
  apply (no_internet_noop_when_enabled false
           (open_connection "data.astropy.org" 80)
           (turn_off_internet false true false (example_load None))).
  reflexivity.
Defined.

(** X15.  A guard inside a guard is transparent: the inner guard is entered
    under the flag the outer one raised, so the nested block behaves as the
    block under the outer guard alone, from any state and for either
    outcome. *)
Theorem nested_no_internet_transparent verbose verbose' body s :
  no_internet verbose (no_internet verbose' body) s =
  no_internet verbose body s.
Proof.
  unfold no_internet at 1 3.
  now rewrite no_internet_under_raised_flag by apply flag_turn_off.
Qed.

(** X16.  What [test_outgoing_fails] relies on: entered under a lowered
    flag, a guard around a [create_connection] that the wrapper with no flag
    refuses or fails on raises that very exception to the caller, and leaves
    the flag lowered and the captured primitives installed; the original
    primitive is not called. *)
Theorem guarded_connection_raises_and_restores env {R}
    (native : string -> list value -> kwargs_t -> state -> result R * state)
    verbose host port e s :
  INTERNET_OFF s = false ->
  new_function env false false [VTuple [VStr host; port]] [] = Err e ->
  no_internet verbose (create_connection_block env native host port) s =
    (Err e,
     turn_on_internet verbose (turn_off_internet verbose false false s)) /\
  INTERNET_OFF
    (snd (no_internet verbose
            (create_connection_block env native host port) s)) = false /\
  installed
    (snd (no_internet verbose
            (create_connection_block env native host port) s)) = captured s.
Proof.
  intros Hflag Hnf.
  assert (Hrun : no_internet verbose
                   (create_connection_block env native host port) s =
                 (Err e,
                  turn_on_internet verbose
                    (turn_off_internet verbose false false s))).
  { unfold no_internet, create_connection_block,
      socket_create_connection_call.
    rewrite Hflag.
    pose proof (turn_off_wraps verbose false false s Hflag) as Hw.
    unfold wrapped_with, installed in Hw. injection Hw as -> _ _.
    now rewrite (call_wrapper_raises env native _ _ _ _ _ _ _ Hnf). }
  rewrite Hrun. simpl. split; [reflexivity|]. split.
  - apply flag_turn_on.
  - rewrite turn_on_restores by apply flag_turn_off.
    apply captured_turn_off.
Qed.

Lemma guarded_connection_raises_and_restores_witness :
  no_internet true
    (create_connection_block example_env example_native
       "www.python.org" (VInt 80))
    (example_load None) =
  (Err (OSError (blocked_message "www.python.org")),
   turn_on_internet true
     (turn_off_internet true false false (example_load None))).
Proof.
  refine (proj1 (guarded_connection_raises_and_restores example_env
                   example_native true "www.python.org" (VInt 80)
                   (OSError (blocked_message "www.python.org"))
                   (example_load None) _ _)).
  - reflexivity.
  - vm_compute. reflexivity.
Defined.

(** * The stoppable server of the tests *)

(** X17.  Given at least one round, [serve_forever] of a
    [StoppableHTTPServer] ends: at once and without handling anything when
    [stop] is set, and otherwise after exactly one request, with [stop]
    set.  A server just made handles one request and stops. *)
Theorem serve_forever_handles_one_request {B} (inherited : B -> B)
    (rounds : nat) (self : StoppableHTTPServer B) (initialised : B) :
  serve_forever inherited (S rounds) self =
    Some (if stop self then self else handle_request inherited self) /\
  serve_forever inherited (S rounds) (StoppableHTTPServer_init initialised) =
    Some {| stop := true; http_server := inherited initialised |}.
Proof.
  split.
  - destruct self as [[|] server]; simpl; [reflexivity|].
    now destruct rounds.
  - simpl. now destruct rounds.
Qed.

(** * What the wrapper and the guard leave alone *)

Lemma guard_ok_inv env a g args kwargs host addr_arg base args' kwargs' :
  guard env a g args kwargs host addr_arg base = Ok (args', kwargs') ->
  kwargs' = kwargs /\
  (args' = args \/
   exists addr port,
     args !! addr_arg = Some addr /\ subscript addr 1 = Ok port /\
     args' = <[ addr_arg := VTuple [VStr "localhost"; port] ]> args).
Proof.
  unfold guard. intros H.
  apply bind_ok in H as (allow & _ & H).
  apply bind_ok in H as ([[h ids] located] & Hlocate & H).
  destruct (decide _); [|discriminate].
  unfold delegate in H. injection H as <- <-. split; [reflexivity|].
  unfold locate_target in Hlocate.
  destruct (is_local_name env host).
  - right. apply bind_ok in Hlocate as (addr & Haddr & Hlocate).
    apply bind_ok in Hlocate as (port & Hport & Hlocate).
    injection Hlocate as _ _ <-.
    unfold arg in Haddr.
    destruct (args !! addr_arg) as [addr'|] eqn:Hlookup; [|discriminate].
    injection Haddr as ->.
    exists addr, port. repeat split; try assumption.
    now apply slice_update with (addr := addr).
  - left. destruct host as [family|items|str|n]; try discriminate.
    apply bind_ok in Hlocate as (ids' & _ & Hlocate).
    now injection Hlocate as _ _ <-.
Qed.

(** X18.  Whatever the arguments, a call the wrapper hands to the original
    primitive carries the keyword arguments unchanged and the positional
    arguments unchanged, but for one case: the address argument replaced by
    the pair of [localhost] and the port of the address; further items of the
    address (flow info and scope of an IPv6 address) are not carried over. *)
Theorem delegation_keeps_arguments env a g args kwargs args' kwargs' :
  new_function env a g args kwargs = Ok (args', kwargs') ->
  kwargs' = kwargs /\
  length args' = length args /\
  (args' = args \/
   exists addr_arg addr port,
     args !! addr_arg = Some addr /\ subscript addr 1 = Ok port /\
     args' = <[ addr_arg := VTuple [VStr "localhost"; port] ]> args).
Proof.
  intros H.
  assert (Hcases : kwargs' = kwargs /\
                   (args' = args \/
                    exists addr_arg addr port,
                      args !! addr_arg = Some addr /\
                      subscript addr 1 = Ok port /\
                      args' = <[ addr_arg := VTuple [VStr "localhost"; port] ]>
                                args)).
  { destruct (new_function_flags env args kwargs)
      as [Hsame|(host & addr_arg & base & Hguard)].
    - destruct args as [|arg0 rest]; [discriminate H|].
      destruct arg0 as [family|items|str|n].
      + unfold new_function in H. simpl in H.
        destruct (bool_decide (family ∈ [AF_INET; AF_INET6])); simpl in H.
        * destruct rest as [|addr rest]; [discriminate H|].
          unfold arg in H. simpl in H. unfold_result.
          destruct (subscript addr 0) as [host|e]; [|discriminate H].
          apply guard_ok_inv in H as [-> [->|(ad & port & H1 & H2 & ->)]];
            split; try reflexivity; [now left|right].
          now exists 1, ad, port.
        * unfold delegate in H. injection H as <- <-. split; [|left]; easy.
      + destruct items as [|x [|y [|z items]]];
          try (unfold new_function, delegate in H; simpl in H;
               injection H as <- <-; split; [|left]; easy).
        unfold new_function in H. simpl in H. unfold_result.
        apply guard_ok_inv in H as [-> [->|(ad & port & H1 & H2 & ->)]];
          split; try reflexivity; [now left|right].
        now exists 0, ad, port.
      + unfold new_function, delegate in H. simpl in H.
        injection H as <- <-. split; [|left]; easy.
      + unfold new_function, delegate in H. simpl in H.
        injection H as <- <-. split; [|left]; easy.
    - rewrite Hguard in H.
      apply guard_ok_inv in H as [-> [->|(ad & port & H1 & H2 & ->)]];
        split; try reflexivity; [now left|right].
      now exists addr_arg, ad, port. }
  destruct Hcases as [Hkw Hargs]. split; [exact Hkw|]. split; [|exact Hargs].
  destruct Hargs as [->|(addr_arg & addr & port & _ & _ & ->)];
    [reflexivity|apply length_insert].
Qed.

Lemma delegation_keeps_arguments_witness :
  [("timeout", VInt 5)] = [("timeout", VInt 5)] /\
  length [VSock AF_INET6; VTuple [VStr "localhost"; VInt 8080]] =
  length [VSock AF_INET6;
          VTuple [VStr "buildhost"; VInt 8080; VInt 0; VInt 3]] /\
  ([VSock AF_INET6; VTuple [VStr "localhost"; VInt 8080]] =
   [VSock AF_INET6; VTuple [VStr "buildhost"; VInt 8080; VInt 0; VInt 3]] \/
   exists addr_arg addr port,
     [VSock AF_INET6; VTuple [VStr "buildhost"; VInt 8080; VInt 0; VInt 3]]
       !! addr_arg = Some addr /\
     subscript addr 1 = Ok port /\
     [VSock AF_INET6; VTuple [VStr "localhost"; VInt 8080]] =
     <[ addr_arg := VTuple [VStr "localhost"; port] ]>
       [VSock AF_INET6;
        VTuple [VStr "buildhost"; VInt 8080; VInt 0; VInt 3]]).
Proof.
  apply (delegation_keeps_arguments example_env false false
           [VSock AF_INET6;
            VTuple [VStr "buildhost"; VInt 8080; VInt 0; VInt 3]]
           [("timeout", VInt 5)]).
  vm_compute. reflexivity.
Defined.

(** X19.  The port of the target, the items after it, the arguments after
    the address and the keyword arguments play no part in the decision: two
    calls of the same shape to the same host raise the same exception or are
    both handed on, since the resolver is always asked for port 80. *)
Theorem decision_ignores_port
    env a g host args kwargs port args' kwargs' port' addr_arg base e :
  internet_call args host port addr_arg base ->
  internet_call args' host port' addr_arg base ->
  new_function env a g args kwargs = Err e ->
  new_function env a g args' kwargs' = Err e.
Proof.
  intros Hshape Hshape' H.
  destruct (extend_valid_hosts env a g base) as [allow|e0] eqn:Hallow.
  2:{ rewrite (allow_list_raises env _ _ _ kwargs _ _ _ _ _ Hshape Hallow)
        in H.
      now rewrite (allow_list_raises env _ _ _ kwargs' _ _ _ _ _
                     Hshape' Hallow). }
  destruct (is_local_name env (VStr host)) eqn:Hlocal.
  { now rewrite (local_name_allowed env _ _ _ kwargs _ _ _ _ _
                   Hshape Hlocal Hallow) in H. }
  destruct (_resolve_host_ips env host 80) as [ids|e0] eqn:Hids.
  - rewrite (remote_name_checked env _ _ _ kwargs _ _ _ _ _ _
               Hshape Hlocal Hallow Hids) in H.
    rewrite (remote_name_checked env _ _ _ kwargs' _ _ _ _ _ _
               Hshape' Hlocal Hallow Hids).
    now destruct (decide _).
  - rewrite (remote_resolution_raises env _ _ _ kwargs _ _ _ _ _ _
               Hshape Hlocal Hallow Hids) in H.
    now rewrite (remote_resolution_raises env _ _ _ kwargs' _ _ _ _ _ _
                   Hshape' Hlocal Hallow Hids).
Qed.

Lemma decision_ignores_port_witness :
  new_function example_env false false
    [VTuple [VStr "www.python.org"; VInt 443]; VInt 30]
    [("timeout", VInt 5)] =
  Err (OSError (blocked_message "www.python.org")).
Proof.
  apply (decision_ignores_port example_env false false "www.python.org"
           [VTuple [VStr "www.python.org"; VInt 80]] [] (VInt 80)
           [VTuple [VStr "www.python.org"; VInt 443]; VInt 30]
           [("timeout", VInt 5)] (VInt 443) 0
           {[ "localhost"; "127.0.0.1" ]}).
  - apply create_connection_call.
  - apply create_connection_call.
  - vm_compute. reflexivity.
Defined.

(** X20.  The guard keeps the controller among its states: after a guarded
    block that itself only enables, disables and guards, the primitives
    captured at import are still the captured ones, and the flag is raised
    exactly when the installed primitives are wrappers of them. *)
Theorem guard_keeps_invariant
    create_connection bind connect current_opener verbose body s :
  let s0 := module_load create_connection bind connect current_opener in
  reachable s0 s ->
  (forall s', reachable s0 s' -> reachable s0 (snd (body s'))) ->
  let s_after := snd (no_internet verbose body s) in
  captured s_after = (create_connection, bind, connect) /\
  (INTERNET_OFF s_after = true <-> wrapped s_after) /\
  (INTERNET_OFF s_after = false <-> installed s_after = captured s_after).
Proof.
  intros s0 Hreach Hbody s_after.
  pose proof (no_internet_reachable s0 verbose body s Hreach Hbody) as Hafter.
  fold s_after in Hafter.
  apply module_load_inv in Hafter as [Hcap Hinv].
  split; [exact Hcap|].
  destruct (INTERNET_OFF s_after); split; split; try easy.
  - intros Heq. now apply wrapped_not_original in Hinv.
  - intros Hw. now apply wrapped_not_original in Hw.
Qed.

Lemma guard_keeps_invariant_witness :
  let s_after :=
    snd (no_internet false
           (fun s => (Ok (), turn_on_internet false s))
           (turn_off_internet false false true (example_load None))) in
  captured s_after =
    (Native "socket.create_connection", Native "socket.socket.bind",
     Native "socket.socket.connect") /\
  (INTERNET_OFF s_after = true <-> wrapped s_after) /\
  (INTERNET_OFF s_after = false <-> installed s_after = captured s_after).
Proof.
  apply (guard_keeps_invariant
           (Native "socket.create_connection") (Native "socket.socket.bind")
           (Native "socket.socket.connect") None false
           (fun s => (Ok (), turn_on_internet false s))
           (turn_off_internet false false true (example_load None))).
  - apply reach_turn_off, reach_load.
  - intros s' Hs'. simpl. now apply reach_turn_on.
Defined.

(** X21.  The guard as its two halves, and guards that overlap without being
    nested.  Running entry, block and exit is the guard; but when a second
    guard is entered while the first is open and the first is left before
    the second, the flag is lowered and the captured primitives are
    installed although the second guard is still open, and leaving the
    second changes nothing. *)
Theorem overlapping_guards_drop_protection verbose verbose' body s :
  INTERNET_OFF s = false ->
  no_internet verbose body s =
    (let '(already_disabled, s1) := no_internet_enter verbose s in
     let '(outcome, s2) := body s1 in
     (outcome, no_internet_exit verbose already_disabled s2)) /\
  let '(first_found_it_on, s1) := no_internet_enter verbose s in
  let '(second_found_it_on, s2) := no_internet_enter verbose' s1 in
  let s3 := no_internet_exit verbose first_found_it_on s2 in
  INTERNET_OFF s2 = true /\
  INTERNET_OFF s3 = false /\
  installed s3 = captured s /\
  no_internet_exit verbose' second_found_it_on s3 = s3.
Proof.
  intros Hflag. split; [reflexivity|].
  unfold no_internet_enter, no_internet_exit. rewrite Hflag.
  rewrite flag_turn_off. simpl.
  rewrite (turn_off_when_off verbose') by apply flag_turn_off.
  repeat split.
  - apply flag_turn_on.
  - rewrite turn_on_restores by apply flag_turn_off.
    apply captured_turn_off.
  - now rewrite flag_turn_off.
Qed.

Lemma overlapping_guards_drop_protection_witness :
  INTERNET_OFF
    (no_internet_exit false false
       (snd (no_internet_enter false
               (snd (no_internet_enter false (example_load None)))))) =
  false.
Proof.
  pose proof (overlapping_guards_drop_protection false false
                (fun s => (Ok (), s)) (example_load None) eq_refl) as H.
  exact (proj1 (proj2 (proj2 H))).
Defined.
